(** * async_web_scrapper.py: fetch, extract, and gather under an event loop

    A shallow embedding of [fetch_url], [extract_page_info], [process_urls],
    [display_results] and [main].  The three libraries the script calls are represented by
    what the script observes of them:

    - aiohttp: what [session.get(url)] and [response.text()] settle with is an
      [Outcome]; the [TCPConnector(limit=...)] is a counter of acquired
      connections;
    - BeautifulSoup: the parsed document is a tree of [PageElement]s, the
      parser itself ([html.parser]) is a parameter of the development: it
      gives a document or raises [ParserRejectedMarkup];
    - rich: the [Progress] object is its task table, the console is the list
      of lines printed so far, and the markup parser of [console.print] is a
      parameter: it lets a line through or raises [MarkupError].

    Python [str] values are Rocq strings, read as sequences of code points
    below 256. *)

From Stdlib Require Import Ascii String.
From stdpp Require Import gmap strings list fin_maps pretty.

Local Open Scope string_scope.
Local Open Scope Z_scope.

(** ** Python string primitives *)

Module Py.

(** [str.isspace] on one character: the code points below 256 that Python
    classifies as whitespace. *)
Definition isspace (a : ascii) : bool :=
  let n := N.to_nat (Ascii.N_of_ascii a) in
  ((9 <=? n) && (n <=? 13) || (28 <=? n) && (n <=? 32)
   || (n =? 133) || (n =? 160))%nat.

Fixpoint lstrip (s : string) : string :=
  match s with
  | String a s' => if isspace a then lstrip s' else s
  | EmptyString => EmptyString
  end.

Fixpoint rstrip (s : string) : string :=
  match s with
  | String a s' =>
      match rstrip s' with
      | EmptyString => if isspace a then EmptyString else String a EmptyString
      | r => String a r
      end
  | EmptyString => EmptyString
  end.

(** [s.strip()] *)
Definition strip (s : string) : string := rstrip (lstrip s).

(** [s.startswith(p)] *)
Definition startswith (s p : string) : bool := String.prefix p s.

(** Truth value of an [Optional[int]]: [None] and [0] are falsy. *)
Definition truthy_int (o : option Z) : bool :=
  match o with
  | Some n => negb (n =? 0)
  | None => false
  end.

End Py.

(** ** Exceptions and results *)

(** The subclasses of [Exception] that reach the script. *)
Inductive Exception :=
  | ClientError (msg : string)   (* aiohttp.ClientError and the like *)
  | TimeoutError                 (* asyncio.TimeoutError *)
  | KeyError (key : string)
  | MarkupError (msg : string)   (* rich.errors.MarkupError *)
  | ParserRejectedMarkup (msg : string).  (* bs4.exceptions *)

(** [str(e)] *)
Definition str (e : Exception) : string :=
  match e with
  | ClientError msg => msg
  | TimeoutError => ""
  | KeyError key => key
  | MarkupError msg => msg
  | ParserRejectedMarkup msg => msg
  end.

Inductive Result (A : Type) :=
  | Return (a : A)
  | Raise (e : Exception).
Arguments Return {A} a.
Arguments Raise {A} e.

(** ** BeautifulSoup documents *)

Module Bs4.

Inductive PageElement :=
  | NavigableString (s : string)
  | Comment (s : string)
  | Element (t : Tag)
with Tag :=
  | mkTag (name : string) (attrs : gmap string string)
          (contents : list PageElement).

Definition name (t : Tag) : string := let 'mkTag n _ _ := t in n.
Definition attrs (t : Tag) : gmap string string := let 'mkTag _ a _ := t in a.

(** A parsed document: the top-level contents of the [BeautifulSoup]
    object. *)
Definition Soup := list PageElement.

(** [tag.descendants] restricted to tags, in document order. *)
Fixpoint descendants (t : Tag) : list Tag :=
  let 'mkTag _ _ cs := t in
  (fix go (cs : list PageElement) : list Tag :=
     match cs with
     | [] => []
     | Element c :: cs' => c :: descendants c ++ go cs'
     | _ :: cs' => go cs'
     end) cs.

Fixpoint tags (soup : Soup) : list Tag :=
  match soup with
  | [] => []
  | Element c :: rest => c :: descendants c ++ tags rest
  | _ :: rest => tags rest
  end.

(** [tag.text]: the strings below the tag, comments left out, joined. *)
Fixpoint text (t : Tag) : string :=
  let 'mkTag _ _ cs := t in
  (fix go (cs : list PageElement) : string :=
     match cs with
     | [] => ""
     | NavigableString s :: cs' => s +:+ go cs'
     | Comment _ :: cs' => go cs'
     | Element c :: cs' => text c +:+ go cs'
     end) cs.

(** What an attribute filter asks for: [attrs={'k': 'v'}] or [k=True]. *)
Inductive AttrFilter :=
  | Equals (v : string)
  | Present.

Definition attr_matches (t : Tag) (kf : string * AttrFilter) : bool :=
  match attrs t !! kf.1, kf.2 with
  | Some v, Equals w => String.eqb v w
  | Some _, Present => true
  | None, _ => false
  end.

Definition tag_matches (nm : string) (filters : list (string * AttrFilter))
    (t : Tag) : bool :=
  String.eqb (name t) nm && forallb (attr_matches t) filters.

(** [soup.find_all(name, ...)] *)
Definition find_all (soup : Soup) (nm : string)
    (filters : list (string * AttrFilter)) : list Tag :=
  List.filter (tag_matches nm filters) (tags soup).

(** [soup.find(name, ...)] *)
Definition find (soup : Soup) (nm : string)
    (filters : list (string * AttrFilter)) : option Tag :=
  head (find_all soup nm filters).

(** [tag.get(key, default)] *)
Definition get (t : Tag) (key default : string) : string :=
  match attrs t !! key with
  | Some v => v
  | None => default
  end.

(** [tag[key]] *)
Definition getitem (t : Tag) (key : string) : Result string :=
  match attrs t !! key with
  | Some v => Return v
  | None => Raise (KeyError key)
  end.

End Bs4.

(** ** urllib.parse *)

Module Urllib.

(** The two components of [urlparse(url)] that the script reads. *)
Record ParseResult := { scheme : string; netloc : string }.

End Urllib.

(** ** rich: the progress table and the console *)

Module Rich.

(** A task of the bar.  [completed] and [total] are floats in rich; the script
    only ever adds [1] to [0] and sets [total] to a length. *)
Record Task := { completed : Z; total : Z }.

(** [_tasks] and [_task_index] of a [Progress] object. *)
Record Progress := { tasks : gmap Z Task; task_index : Z }.

(** [Progress(...)]: no task, and the first task id is [TaskID(0)]. *)
Definition new : Progress := {| tasks := ∅; task_index := 0 |}.

(** [progress.add_task(description, total=n)] returns the id it used. *)
Definition add_task (n : Z) (p : Progress) : Z * Progress :=
  (task_index p,
   {| tasks := <[task_index p := {| completed := 0; total := n |}]> (tasks p);
      task_index := task_index p + 1 |}).

(** [progress.update(task_id, advance=k)]; an unknown id is a [KeyError]. *)
Definition update (task_id k : Z) (p : Progress) : Result Progress :=
  match tasks p !! task_id with
  | Some t =>
      Return {| tasks := <[task_id := {| completed := completed t + k;
                                         total := total t |}]> (tasks p);
                task_index := task_index p |}
  | None => Raise (KeyError (pretty task_id))
  end.

(** How far the bar of task [task_id] has advanced. *)
Definition advanced (task_id : Z) (p : Progress) : option Z :=
  completed <$> tasks p !! task_id.

End Rich.

(** ** The store and the monad of the coroutines *)

(** What the coroutines share: the module-level [console] and the one
    [Progress] object of the batch. *)
Record Store := { console : list string; bar : Rich.Progress }.

(** The [progress] argument is [None] or a reference to the bar of the
    store. *)
Inductive Ref := the_bar.

(** A computation reads and writes the store and returns or raises; what it
    wrote before raising stays written. *)
Definition M (A : Type) : Type := Store → Result A * Store.

Definition ret {A} (a : A) : M A := λ st, (Return a, st).

Definition bind {A B} (m : M A) (k : A → M B) : M B :=
  λ st, match m st with
        | (Return a, st') => k a st'
        | (Raise e, st') => (Raise e, st')
        end.

Declare Scope py_scope.
Delimit Scope py_scope with py.
Notation "'let*' x ':=' m 'in' k" := (bind m (λ x, k))
  (at level 10, x name, m at level 100, k at level 200) : py_scope.
Notation "m ';;;' k" := (bind m (λ _, k))
  (at level 100, k at level 200, right associativity) : py_scope.
Local Open Scope py_scope.

Definition raise {A} (e : Exception) : M A := λ st, (Raise e, st).

Definition lift {A} (r : Result A) : M A := λ st, (r, st).

(** [try: m  except Exception as e: h e] *)
Definition catch {A} (m : M A) (h : Exception → M A) : M A :=
  λ st, match m st with
        | (Raise e, st') => h e st'
        | (Return a, st') => (Return a, st')
        end.

(** [progress.update(task_id, advance=1)] on the bar of the store. *)
Definition progress_update (task_id : Z) : M unit :=
  λ st, match Rich.update task_id 1 (bar st) with
        | Return p => (Return tt, {| console := console st; bar := p |})
        | Raise e => (Raise e, st)
        end.

(** ** aiohttp: what a request settles with *)

(** Either a response arrives, with its status and with what
    [await response.text()] gives, or [session.get] raises. *)
Inductive Outcome :=
  | Response (status : Z) (text : Result string)
  | Raised (e : Exception).

(** ** The result record *)

Record PageResult := {
  url : string;
  title : option string;
  description : option string;
  links : list string
}.

(** ** The command line, the file of URLs and the ways out of a call *)

Module Argparse.

(** The [Namespace] that [parser.parse_args()] returns: the positional
    [urls], [--file] and [--concurrent]. *)
Record Namespace := {
  urls : list string;
  file : option string;
  concurrent : Z
}.

End Argparse.

(** What [open(path)] and the iteration over the file give: the lines, each
    as the iteration yields it, or an exception with its [str(e)]. *)
Inductive FileRead :=
  | FileLines (lines : list string)
  | FileError (msg : string).

(** How a call leaves: it returns, it raises the [TypeError] of subscripting
    [None], or an exception of a coroutine escapes it. *)
Inductive Exit :=
  | Normal
  | TypeError
  | Escaped (e : Exception).

(** The line feed of the f-strings that start with a new line. *)
Definition nl : string := String (ascii_of_nat 10) EmptyString.

(** The URLs of [main] when none is given. *)
Definition default_urls : list string :=
  [ "https://python.org";
    "https://docs.python.org/3/library/asyncio.html";
    "https://realpython.com/async-io-python/";
    "https://en.wikipedia.org/wiki/Python_(programming_language)";
    "https://github.com/python/cpython" ].

(** ** Test doubles

    Small stand-ins for the two parameters of the script ([urlparse] and the
    HTML parser) and a few documents, used to run the script on concrete
    pages. *)

Module Mock.

Import Bs4.

(** [p] occurs in [s]. *)
Fixpoint contains (p s : string) : bool :=
  String.prefix p s
  || match s with
     | String _ s' => contains p s'
     | EmptyString => false
     end.

(** A markup parser that knows one unmatched closing tag. *)
Definition markup_error (line : string) : option string :=
  if contains "[/b]" line
  then Some "closing tag '[/b]' doesn't match any open tag"
  else None.


Definition a (href : string) : PageElement :=
  Element (mkTag "a" {[ "href" := href ]} []).

(** Four anchors: a rooted path, an absolute URL, a mail address and a
    fragment. *)
Definition four_anchors : Soup :=
  [ a "/about"; a "https://x.com/page"; a "mailto:a@b.com"; a "#frag" ].

(** Eight anchors that all resolve to http(s) URLs. *)
Definition eight_anchors : Soup :=
  [ a "/1"; a "https://x.com/2"; a "/3"; a "http://y.org/4";
    a "/5"; a "/6"; a "https://x.com/7"; a "/8" ].

(** A page with a title, a description and one link. *)
Definition title_tag : Tag := mkTag "title" ∅ [ NavigableString " Welcome " ].

Definition description_tag : Tag :=
  mkTag "meta" {[ "name" := "description"; "content" := " A page. " ]} [].

Definition full_page : Soup :=
  [ Element (mkTag "html" ∅
      [ Element (mkTag "head" ∅
          [ Element title_tag; Element description_tag ]);
        Element (mkTag "body" ∅
          [ NavigableString "See ";
            Element (mkTag "a" {[ "href" := "/docs" ]}
                       [ NavigableString "the docs" ]) ]) ]) ].

(** A description tag without a [content] attribute, and no title. *)
Definition bare_meta_tag : Tag := mkTag "meta" {[ "name" := "description" ]} [].

Definition bare_meta : Soup := [ Element bare_meta_tag ].

(** Neither a title nor a description. *)
Definition plain : Soup :=
  [ Element (mkTag "p" ∅ [ NavigableString "hello" ]) ].

(** Two description tags, the first with a content, the second without. *)
Definition two_metas : Soup :=
  [ Element (mkTag "meta" {[ "name" := "description"; "content" := "x" ]} []);
    Element bare_meta_tag ].

(** A parser that rejects two bodies and knows a few pages. *)
Definition BeautifulSoup (html : string) : Result Soup :=
  if String.eqb html "<![foo[bar]]>"
  then Raise (ParserRejectedMarkup "expected name token at '<![foo[bar]]>'")
  else if String.eqb html "<![x[y]]>"
  then Raise (ParserRejectedMarkup "expected name token at '<![x[y]]>'")
  else Return
    (if String.eqb html EmptyString then []
     else if String.eqb html "<four anchors>" then four_anchors
     else if String.eqb html "<eight anchors>" then eight_anchors
     else if String.eqb html "<full page>" then full_page
     else if String.eqb html "<bare meta>" then bare_meta
     else if String.eqb html "<two metas>" then two_metas
     else plain).

Definition urlparse (url : string) : Urllib.ParseResult :=
  if String.eqb url "https://site.com"
  then {| Urllib.scheme := "https"; Urllib.netloc := "site.com" |}
  else {| Urllib.scheme := "https"; Urllib.netloc := "python.org" |}.

(** An empty console and a bar with task [0] of total [1]. *)
Definition store0 : Store :=
  {| console := []; bar := (Rich.add_task 1 Rich.new).2 |}.

(** A batch of two URLs. *)
Definition two_urls : list string := [ "https://site.com"; "https://python.org" ].

(** A batch whose first URL holds a closing tag. *)
Definition tagged_urls : list string :=
  [ "https://site.com/[/b]"; "https://python.org" ].

(** A page whose title holds only whitespace, and a parser that knows it. *)
Definition blank_title_tag : Tag := mkTag "title" ∅ [ NavigableString "  " ].

Definition blank_title : Soup := [ Element blank_title_tag ].

Definition BeautifulSoup' (html : string) : Result Soup :=
  if String.eqb html "<blank title>" then Return blank_title
  else BeautifulSoup html.

(** A bar with the tasks [0] and [1]. *)
Definition store1 : Store :=
  {| console := [];
     bar := (Rich.add_task 3 (Rich.add_task 1 Rich.new).2).2 |}.

(** A command line with one URL and a file, and the file: a URL between
    blanks, an empty line, a blank line. *)
Definition args : Argparse.Namespace :=
  {| Argparse.urls := [ "https://site.com" ];
     Argparse.file := Some "urls.txt";
     Argparse.concurrent := 2 |}.

Definition fs (path : string) : FileRead :=
  if String.eqb path "urls.txt"
  then FileLines [ "  https://python.org" +:+ nl; nl; "   " +:+ nl ]
  else FileError "[Errno 2] No such file or directory".

End Mock.

(** ** The script *)

Section Scraper.

(** [urlparse] of the standard library, the [html.parser] tree builder
    ([BeautifulSoup(html, 'html.parser')]) and the markup parser of rich are
    parameters.  The tree builder gives a document or raises; the markup
    parser gives [None] for a text it renders and the message of its
    [MarkupError] for one it does not. *)
Variable urlparse : string → Urllib.ParseResult.
Variable BeautifulSoup : string → Result Bs4.Soup.
Variable markup_error : string → option string.

(** [console.print(line)]: the line goes through the markup parser. *)
Definition console_print (line : string) : M unit :=
  λ st, match markup_error line with
        | None =>
            (Return tt,
             {| console := (console st ++ [line])%list; bar := bar st |})
        | Some msg => (Raise (MarkupError msg), st)
        end.

(** The two lines of [fetch_url]. *)
Definition status_line (url : string) (status : Z) : string :=
  "[bold red]Error fetching " +:+ url +:+ ":[/bold red] Status "
  +:+ pretty status.

Definition error_line (url : string) (e : Exception) : string :=
  "[bold red]Error fetching " +:+ url +:+ ":[/bold red] " +:+ str e.

(** [fetch_url(session, url)].  [got] is what the session's request for [url]
    settles with.  Everything the [try] raises, the print of the status line
    included, goes to the handler; what the print of the handler raises
    leaves the function. *)
Definition fetch_url (got : Outcome) (url : string) : M (option string) :=
  catch
    (match got with
     | Response status text =>
         if status =? 200 then
           let* body := lift text in
           ret (Some body)
         else
           console_print (status_line url status) ;;;
           ret None
     | Raised e => raise e
     end)
    (λ e, console_print (error_line url e) ;;;
          ret None).

(** [if progress and task_id: progress.update(task_id, advance=1)] *)
Definition advance (progress : option Ref) (task_id : option Z) : M unit :=
  match progress, task_id with
  | Some the_bar, Some id =>
      if Py.truthy_int task_id then progress_update id else ret tt
  | _, _ => ret tt
  end.

(** The body of [for a_tag in soup.find_all('a', href=True)], with [links]
    the list built so far. *)
Fixpoint collect_links (base_url : string) (a_tags : list Bs4.Tag)
    (links : list string) : Result (list string) :=
  match a_tags with
  | [] => Return links
  | a_tag :: rest =>
      match Bs4.getitem a_tag "href" with
      | Return href =>
          let href :=
            if Py.startswith href "/" then base_url +:+ href else href in
          let links :=
            if Py.startswith href "http://" || Py.startswith href "https://"
            then (links ++ [href])%list else links in
          collect_links base_url rest links
      | Raise e => Raise e
      end
  end.

(** [extract_page_info(session, url, progress, task_id)] *)
Definition extract_page_info (got : Outcome) (url : string)
    (progress : option Ref) (task_id : option Z) : M PageResult :=
  let* html := fetch_url got url in
  match html with
  | Some (String _ _ as html) =>
      let* soup := lift (BeautifulSoup html) in
      let title :=
        match Bs4.find soup "title" [] with
        | Some t => Py.strip (Bs4.text t)
        | None => "No title"
        end in
      let description_tag :=
        Bs4.find soup "meta" [("name", Bs4.Equals "description")] in
      let description :=
        match description_tag with
        | Some t => Py.strip (Bs4.get t "content" "")
        | None => "No description"
        end in
      let base_url :=
        Urllib.scheme (urlparse url) +:+ "://"
        +:+ Urllib.netloc (urlparse url) in
      let* links :=
        lift (collect_links base_url
                (Bs4.find_all soup "a" [("href", Bs4.Present)]) []) in
      advance progress task_id ;;;
      ret {| url := url;
             title := Some title;
             description := Some description;
             links := take 5 links |}
  | _ =>
      (* [not html]: [None] or the empty string *)
      advance progress task_id ;;;
      ret {| url := url; title := None; description := None; links := [] |}
  end.

(** *** The event loop under [asyncio.gather] *)

(** A coroutine [extract_page_info(session, url, progress, task_id)] suspends
    only inside [fetch_url]: it waits for the connector to hand it a
    connection, then it holds the connection until the request settles or is
    redirected (the session gives the connection back and asks for one for
    the next hop), and once the request has settled it runs to its [return]
    or to an exception without suspending again. *)
Inductive Coro :=
  | Waiting
  | InFlight
  | Finished (r : Result PageResult).

(** The coroutines in the order [gather] received them, the first exception
    that reached [gather], and the store. *)
Record Loop := {
  coros : list Coro;
  raised : option Exception;
  store : Store
}.

(** What the loop can be woken by: the connector hands coroutine [i] a
    connection, the response for coroutine [i] is a redirect, or the request
    of coroutine [i] settles with [got].  The session stops following
    redirects after [max_redirects] hops with an exception, which is a
    settlement; the hops are not counted here. *)
Inductive Event :=
  | Connect (i : nat)
  | Redirect (i : nat)
  | Settle (i : nat) (got : Outcome).

Definition in_flight (c : Coro) : bool :=
  match c with InFlight => true | _ => false end.

(** [len(connector._acquired)] *)
Definition acquired (cs : list Coro) : nat :=
  length (List.filter in_flight cs).

(** [TCPConnector(limit=limit)]: the connections still to hand out; a limit
    of [0] is no limit. *)
Definition available (limit : Z) (cs : list Coro) : Z :=
  if limit =? 0 then 1 else limit - Z.of_nat (acquired cs).

(** A request that holds a connection may settle in any way; one that is
    still queued can only raise (its timeout expires, its URL is refused). *)
Definition may_settle (c : Coro) (got : Outcome) : bool :=
  match c, got with
  | InFlight, _ => true
  | Waiting, Raised _ => true
  | _, _ => false
  end.

Definition first_raised {A} (old : option Exception) (r : Result A)
    : option Exception :=
  match old, r with
  | None, Raise e => Some e
  | _, _ => old
  end.

Section Batch.

Variable urls : list string.
Variable max_concurrent : Z.
Variable task_id : Z.

(** One wake-up of the loop; [None] when the event cannot happen in [L]. *)
Definition step (L : Loop) (ev : Event) : option Loop :=
  match ev with
  | Connect i =>
      match coros L !! i with
      | Some Waiting =>
          if 0 <? available max_concurrent (coros L) then
            Some {| coros := <[i := InFlight]> (coros L);
                    raised := raised L;
                    store := store L |}
          else None
      | _ => None
      end
  | Redirect i =>
      match coros L !! i with
      | Some InFlight =>
          Some {| coros := <[i := Waiting]> (coros L);
                  raised := raised L;
                  store := store L |}
      | _ => None
      end
  | Settle i got =>
      match coros L !! i, urls !! i with
      | Some c, Some url =>
          if may_settle c got then
            let '(r, st) :=
              extract_page_info got url (Some the_bar) (Some task_id)
                (store L) in
            Some {| coros := <[i := Finished r]> (coros L);
                    raised := first_raised (raised L) r;
                    store := st |}
          else None
      | _, _ => None
      end
  end.

Fixpoint run (L : Loop) (schedule : list Event) : option Loop :=
  match schedule with
  | [] => Some L
  | ev :: rest =>
      match step L ev with
      | Some L' => run L' rest
      | None => None
      end
  end.

End Batch.

Definition returned (c : Coro) : option PageResult :=
  match c with
  | Finished (Return r) => Some r
  | _ => None
  end.

Definition finished (c : Coro) : bool :=
  match c with Finished _ => true | _ => false end.

(** What awaiting [asyncio.gather] on the tasks gives in [L]: it raises the first
    exception of a coroutine, it returns the results in the order of its
    arguments once every coroutine has returned, and it is pending ([None])
    otherwise. *)
Definition gather (L : Loop) : option (Result (list PageResult)) :=
  match raised L with
  | Some e => Some (Raise e)
  | None => Return <$> mapM returned (coros L)
  end.

(** The loop when [gather] is first awaited: a fresh [Progress] with the one
    task [add_task] made, and one coroutine per URL. *)
Definition start (urls : list string) (out : list string) : Z * Loop :=
  let '(task_id, p) :=
    Rich.add_task (Z.of_nat (length urls)) Rich.new in
  (task_id,
   {| coros := (λ _, Waiting) <$> urls;
      raised := None;
      store := {| console := out; bar := p |} |}).

(** [process_urls(urls, max_concurrent)] under a schedule of the loop's
    wake-ups, with [out] the console so far.  [None]: the schedule cannot
    happen, or it leaves [gather] pending. *)
Definition process_urls (urls : list string) (max_concurrent : Z)
    (out : list string) (schedule : list Event)
    : option (Result (list PageResult)) :=
  let '(task_id, L0) := start urls out in
  match run urls max_concurrent task_id L0 schedule with
  | Some L => gather L
  | None => None
  end.

(** The outcome a schedule delivers to coroutine [i]. *)
Fixpoint delivered (schedule : list Event) (i : nat) : option Outcome :=
  match schedule with
  | [] => None
  | Settle j got :: rest =>
      if (j =? i)%nat then Some got else delivered rest i
  | _ :: rest => delivered rest i
  end.

(** *** Display and entry point *)

(** [for i, link in enumerate(result['links'], i)] with its
    [console.print]. *)
Fixpoint link_lines (i : nat) (links : list string) : list string :=
  match links with
  | [] => []
  | link :: rest =>
      ("  " +:+ pretty i +:+ ". " +:+ link) :: link_lines (S i) rest
  end.

(** [console.print(line)] on the console [out], outside the coroutines. *)
Definition print (line : string) (out : list string) : Exit * list string :=
  match markup_error line with
  | None => (Normal, (out ++ [line])%list)
  | Some msg => (Escaped (MarkupError msg), out)
  end.

(** What follows a call that returned. *)
Definition and_then (x : Exit * list string)
    (k : list string → Exit * list string) : Exit * list string :=
  match x with
  | (Normal, out) => k out
  | _ => x
  end.

Fixpoint print_lines (lines : list string) (out : list string)
    : Exit * list string :=
  match lines with
  | [] => (Normal, out)
  | line :: rest => and_then (print line out) (print_lines rest)
  end.

(** [display_results(results)] on the console [out].  A record is shown when
    its title is truthy; [result['description'][:100]] of a description that
    is [None] is a [TypeError], after the two lines before it; a line that
    the markup parser refuses is a [MarkupError]. *)
Fixpoint display_results (results : list PageResult) (out : list string)
    : Exit * list string :=
  match results with
  | [] => (Normal, out)
  | result :: rest =>
      match title result with
      | Some (String _ _ as t) =>
          and_then
            (print (nl +:+ "[bold cyan]URL:[/bold cyan] " +:+ url result) out)
            (λ out,
          and_then
            (print ("[bold green]Title:[/bold green] " +:+ t) out)
            (λ out,
          match description result with
          | Some d =>
              and_then
                (print ("[bold yellow]Description:[/bold yellow] "
                        +:+ substring 0 100 d +:+ "...") out)
                (λ out,
              and_then
                (match links result with
                 | [] => (Normal, out)
                 | _ :: _ =>
                     and_then
                       (print "[bold magenta]Top Links:[/bold magenta]" out)
                       (print_lines (link_lines 1 (links result)))
                 end)
                (λ out,
              and_then (print "---" out) (display_results rest)))
          | None => (TypeError, out)
          end))
      | _ => display_results rest out
      end
  end.

(** Truth value of a [str]. *)
Definition nonempty (s : string) : bool :=
  match s with
  | String _ _ => true
  | EmptyString => false
  end.

(** Lines 111 to 128 of [main]: the URLs of the batch, from the command line,
    then from the file, or else the default ones; and the console, with the
    error of a file that could not be read.  The print of that error is in
    the handler, so what it raises leaves [main]. *)
Definition main_urls (args : Argparse.Namespace) (fs : string → FileRead)
    (out : list string) : Result (list string) * list string :=
  let '(urls, out) :=
    match Argparse.file args with
    | Some (String _ _ as path) =>
        match fs path with
        | FileLines lines =>
            (Return (Argparse.urls args
                     ++ List.filter nonempty (Py.strip <$> lines))%list, out)
        | FileError msg =>
            match markup_error
                    ("[bold red]Error reading file:[/bold red] " +:+ msg) with
            | None =>
                (Return (Argparse.urls args),
                 (out ++ ["[bold red]Error reading file:[/bold red] "
                          +:+ msg])%list)
            | Some m => (Raise (MarkupError m), out)
            end
        end
    | _ => (Return (Argparse.urls args), out)
    end in
  (match urls with
   | Return [] => Return default_urls
   | _ => urls
   end, out).


(** *** Vocabulary of the properties *)

(** A fetch fails: a status other than 200, or an exception from the request
    or from reading the body. *)
Definition fetch_fails (got : Outcome) : bool :=
  match got with
  | Response status (Return _) => negb (status =? 200)
  | _ => true
  end.

(** The record of a URL whose page could not be had. *)
Definition failure (url : string) : PageResult :=
  {| url := url; title := None; description := None; links := [] |}.

(** The progress arguments are ones that [progress.update] accepts: no
    reporter, a falsy task id, or a task of the bar. *)
Definition advance_safe (progress : option Ref) (task_id : option Z)
    (p : Rich.Progress) : bool :=
  match progress, task_id with
  | Some _, Some id => (id =? 0) || bool_decide (is_Some (Rich.tasks p !! id))
  | _, _ => true
  end.

(** The coroutine run without a reporter on an empty console. *)
Definition headless (got : Outcome) (url : string) : Result PageResult :=
  (extract_page_info got url None None
     {| console := []; bar := Rich.new |}).1.

(** The href of an anchor element that has one. *)
Definition anchor_href (t : Bs4.Tag) : option string :=
  if String.eqb (Bs4.name t) "a" then Bs4.attrs t !! "href" else None.

(** The hrefs of the anchors of a document, in document order. *)
Definition hrefs (soup : Bs4.Soup) : list string :=
  omap anchor_href (Bs4.tags soup).

(** An href that starts with a slash is put behind the page's
    scheme://host. *)
Definition resolve (base_url href : string) : string :=
  if Py.startswith href "/" then base_url +:+ href else href.

Definition is_http (href : string) : bool :=
  Py.startswith href "http://" || Py.startswith href "https://".

(** The links as the specification words them: resolve, keep the http(s)
    ones, keep the first five. *)
Definition spec_links (base_url : string) (soup : Bs4.Soup) : list string :=
  take 5 (List.filter is_http (resolve base_url <$> hrefs soup)).

Definition is_title (t : Bs4.Tag) : bool := String.eqb (Bs4.name t) "title".

Definition is_description_meta (t : Bs4.Tag) : bool :=
  String.eqb (Bs4.name t) "meta"
  && bool_decide (Bs4.attrs t !! "name" = Some "description").

(** The title as the specification words it: the trimmed text of the first
    title element, or the sentinel. *)
Definition spec_title (soup : Bs4.Soup) : string :=
  match List.find is_title (Bs4.tags soup) with
  | Some t => Py.strip (Bs4.text t)
  | None => "No title"
  end.

(** The description as the specification words it: the trimmed [content] of
    the first description meta tag, or the sentinel. *)
Definition spec_description (soup : Bs4.Soup) : string :=
  match List.find is_description_meta (Bs4.tags soup) with
  | Some t => Py.strip (default "" (Bs4.attrs t !! "content"))
  | None => "No description"
  end.

(** The page's scheme://host. *)
Definition base_of (url : string) : string :=
  Urllib.scheme (urlparse url) +:+ "://" +:+ Urllib.netloc (urlparse url).

(** The record of a parsed page. *)
Definition spec_page (url : string) (soup : Bs4.Soup) : PageResult :=
  {| url := url;
     title := Some (spec_title soup);
     description := Some (spec_description soup);
     links := spec_links (base_of url) soup |}.

(** [t] is the first of [ts] that satisfies [P]. *)
Definition first_where (P : Bs4.Tag → bool) (ts : list Bs4.Tag)
    (t : Bs4.Tag) : Prop :=
  ∃ before after,
    ts = (before ++ t :: after)%list
    ∧ Forall (λ x, P x = false) before ∧ P t = true.

(** No element of [ts] satisfies [P]. *)
Definition none_where (P : Bs4.Tag → bool) (ts : list Bs4.Tag) : Prop :=
  Forall (λ x, P x = false) ts.

(** The coroutines that have not returned yet. *)
Definition pending (cs : list Coro) : nat :=
  length (List.filter (λ c, negb (finished c)) cs).


(** The title of the record is truthy: [display_results] shows it. *)
Definition titled (r : PageResult) : bool :=
  match title r with
  | Some (String _ _) => true
  | _ => false
  end.

(** The lines [display_results] prints for a record it can show. *)
Definition lines_of (r : PageResult) : nat :=
  if titled r
  then match links r with
       | [] => 4
       | _ :: _ => 5 + length (links r)
       end
  else 0.

(** The string starts, ends or is all of whitespace. *)
Definition starts_space (s : string) : bool :=
  match s with
  | String a _ => Py.isspace a
  | EmptyString => false
  end.

Fixpoint ends_space (s : string) : bool :=
  match s with
  | EmptyString => false
  | String a EmptyString => Py.isspace a
  | String _ s' => ends_space s'
  end.

Fixpoint all_space (s : string) : bool :=
  match s with
  | EmptyString => true
  | String a s' => Py.isspace a && all_space s'
  end.

(** The settlements of a schedule that are failed fetches. *)
Definition failed_settle (ev : Event) : bool :=
  match ev with
  | Settle _ got => fetch_fails got
  | _ => false
  end.

Definition failures (schedule : list Event) : nat :=
  length (List.filter failed_settle schedule).

(** The record can be shown: with a truthy title it has a description. *)
Definition showable (r : PageResult) : Prop :=
  titled r = true → is_Some (description r).

(** No coroutine of the batch raises on the outcome the schedule delivers to
    it: every error line is printed and every fetched body is parsed. *)
Definition no_raise (urls : list string) (schedule : list Event) : Prop :=
  ∀ i u got, urls !! i = Some u → delivered schedule i = Some got →
    ∃ r, headless got u = Return r.

(** The URLs of a file as the usage words them: the lines that are not
    blank, without the whitespace around them. *)
Definition file_urls (lines : list string) : list string :=
  omap (λ l, if all_space l then None else Some (Py.strip l)) lines.

(** Some tag of the document is a description meta tag without a content
    attribute. *)
Definition has_bare_description (soup : Bs4.Soup) : Prop :=
  ∃ t, t ∈ Bs4.tags soup ∧ is_description_meta t = true
       ∧ Bs4.attrs t !! "content" = None.

(** What the handler of [fetch_url] does with the exception [e]: it prints
    the error line and gives [None], or its print raises. *)
Definition handled (u : string) (e : Exception) (st : Store)
    : Result (option string) * Store :=
  match markup_error (error_line u e) with
  | None =>
      (Return None,
       {| console := (console st ++ [error_line u e])%list; bar := bar st |})
  | Some m => (Raise (MarkupError m), st)
  end.

(** No coroutine has raised without [gather] knowing, and the exception
    [gather] knows is that of a coroutine. *)
Definition raised_inv (L : Loop) : Prop :=
  match raised L with
  | None => ∀ i e, coros L !! i ≠ Some (Finished (Raise e))
  | Some e => ∃ i, coros L !! i = Some (Finished (Raise e))
  end.

(** The exception is the [MarkupError] of a line that the markup parser
    refuses. *)
Definition refused (e : Exception) : Prop :=
  ∃ line m, markup_error line = Some m ∧ e = MarkupError m.

(** The record cannot be shown: it has a truthy title and no description. *)
Definition unshowable (r : PageResult) : Prop :=
  titled r = true ∧ description r = None.

(** A piece of [main] or of [display_results] that was to print [n] lines on
    the console [out]: it has only added lines, at most [n]; if it returned
    it has added [n] and [normal] holds, a [TypeError] is one of [te], and any
    other exception is that of a refused line. *)
Definition grows (n : nat) (normal te : Prop) (x : Exit * list string)
    (out : list string) : Prop :=
  ∃ added,
    x.2 = (out ++ added)%list
    ∧ (length added ≤ n)%nat
    ∧ match x.1 with
      | Normal => normal ∧ length added = n
      | TypeError => te
      | Escaped e => refused e
      end.

(** ** Properties *)

(** *** [fetch_url] and the progress signal *)

Lemma prefix_append p s : String.prefix p (p +:+ s) = true.
Proof.
  induction p as [|a p IH]; simpl; [by destruct s|].
  by destruct (ascii_dec a a).
Qed.

Lemma fetch_url_body body u st :
  fetch_url (Response 200 (Return body)) u st = (Return (Some body), st).
Proof. reflexivity. Qed.

Lemma fetch_url_text_raised e u st :
  fetch_url (Response 200 (Raise e)) u st = handled u e st.
Proof.
  unfold fetch_url, catch, handled, bind, console_print, ret. simpl.
  by destruct (markup_error (error_line u e)).
Qed.

Lemma fetch_url_raised e u st : fetch_url (Raised e) u st = handled u e st.
Proof.
  unfold fetch_url, catch, handled, bind, console_print, ret, raise.
  by destruct (markup_error (error_line u e)).
Qed.

Lemma fetch_url_status status text u st :
  status ≠ 200 →
  fetch_url (Response status text) u st
  = match markup_error (status_line u status) with
    | None =>
        (Return None,
         {| console := (console st ++ [status_line u status])%list;
            bar := bar st |})
    | Some m => handled u (MarkupError m) st
    end.
Proof.
  intros Hs%Z.eqb_neq.
  unfold fetch_url, catch, handled, bind, console_print, ret. rewrite Hs.
  destruct (markup_error (status_line u status)) as [m|]; [|reflexivity].
  by destruct (markup_error (error_line u (MarkupError m))).
Qed.

(** The ways a request can settle, as [fetch_url] tells them apart. *)
Lemma outcome_cases got :
  (∃ body, got = Response 200 (Return body))
  ∨ (fetch_fails got = true
     ∧ ((∃ status text, got = Response status text ∧ status ≠ 200)
        ∨ (∃ e, got = Response 200 (Raise e))
        ∨ ∃ e, got = Raised e)).
Proof.
  destruct got as [status text|e].
  - destruct (Z.eqb_spec status 200) as [->|Hne].
    + destruct text as [body|e]; [left; eauto|].
      right. split; [done|]. right. left. eauto.
    + right. split.
      * simpl. destruct text; [|done]. by apply negb_true_iff, Z.eqb_neq.
      * left. eauto.
  - right. split; [done|]. right. right. eauto.
Qed.

(** The three ways [fetch_url] ends: with the body of a 200 response and no
    line; with [None] and one error line; with the [MarkupError] of the
    handler's print and no line. *)
Lemma fetch_url_cases got u :
  (∃ body, got = Response 200 (Return body)
           ∧ ∀ st, fetch_url got u st = (Return (Some body), st))
  ∨ (fetch_fails got = true
     ∧ ∃ line, Py.startswith line "[bold red]Error fetching " = true
         ∧ ∀ st, fetch_url got u st
                 = (Return None,
                    {| console := (console st ++ [line])%list;
                       bar := bar st |}))
  ∨ (fetch_fails got = true
     ∧ ∃ m, ∀ st, fetch_url got u st = (Raise (MarkupError m), st)).
Proof.
  assert (∀ e, (∃ line, Py.startswith line "[bold red]Error fetching " = true
                  ∧ ∀ st, handled u e st
                          = (Return None,
                             {| console := (console st ++ [line])%list;
                                bar := bar st |}))
               ∨ ∃ m, ∀ st, handled u e st = (Raise (MarkupError m), st))
    as Hhandler.
  { intros e. unfold handled.
    destruct (markup_error (error_line u e)) as [m|].
    - right. by exists m.
    - left. exists (error_line u e). split; [apply prefix_append | done]. }
  destruct (outcome_cases got)
    as [[body ->]|[Hf [(status & text & -> & Hs)|[[e ->]|[e ->]]]]].
  - left. by exists body.
  - right. destruct (markup_error (status_line u status)) as [m|] eqn:Hm.
    + destruct (Hhandler (MarkupError m)) as [(line & Hl & H)|[m' H]].
      * left. split; [done|]. exists line. split; [done|]. intros st.
        by rewrite (fetch_url_status _ _ _ _ Hs), Hm.
      * right. split; [done|]. exists m'. intros st.
        by rewrite (fetch_url_status _ _ _ _ Hs), Hm.
    + left. split; [done|]. exists (status_line u status).
      split; [apply prefix_append|]. intros st.
      by rewrite (fetch_url_status _ _ _ _ Hs), Hm.
  - right. destruct (Hhandler e) as [(line & Hl & H)|[m' H]].
    + left. split; [done|]. exists line. split; [done|]. intros st.
      by rewrite fetch_url_text_raised.
    + right. split; [done|]. exists m'. intros st.
      by rewrite fetch_url_text_raised.
  - right. destruct (Hhandler e) as [(line & Hl & H)|[m' H]].
    + left. split; [done|]. exists line. split; [done|]. intros st.
      by rewrite fetch_url_raised.
    + right. split; [done|]. exists m'. intros st.
      by rewrite fetch_url_raised.
Qed.

Lemma fetch_url_bar got u st : bar (fetch_url got u st).2 = bar st.
Proof.
  destruct (fetch_url_cases got u)
    as [(body & _ & H)|[(_ & line & _ & H)|(_ & m & H)]]; by rewrite H.
Qed.

Lemma advance_falsy progress st : advance progress (Some 0) st = (Return tt, st).
Proof. by destruct progress as [[]|]. Qed.

Lemma advance_returns progress task_id st :
  advance_safe progress task_id (bar st) = true →
  ∃ st', advance progress task_id st = (Return tt, st')
         ∧ console st' = console st.
Proof.
  destruct progress as [[]|], task_id as [id|]; simpl; eauto.
  destruct (id =? 0) eqn:E; simpl; [eauto|].
  intros [t Ht]%bool_decide_eq_true.
  unfold progress_update, Rich.update. rewrite Ht. eauto.
Qed.

Lemma advance_truthy id st :
  id ≠ 0 →
  advance (Some the_bar) (Some id) st = progress_update id st.
Proof. intros H%Z.eqb_neq. simpl. by rewrite H. Qed.

Lemma advance_console progress task_id st :
  console (advance progress task_id st).2 = console st.
Proof.
  destruct progress as [[]|], task_id as [id|]; simpl; try reflexivity.
  destruct (id =? 0); simpl; [reflexivity|].
  unfold progress_update. by destruct (Rich.update id 1 (bar st)).
Qed.

(** *** The links loop *)

Lemma anchor_filter_href (t : Bs4.Tag) :
  Bs4.tag_matches "a" [("href", Bs4.Present)] t = true →
  ∃ href, Bs4.attrs t !! "href" = Some href ∧ anchor_href t = Some href.
Proof.
  unfold Bs4.tag_matches, Bs4.attr_matches, anchor_href. simpl.
  destruct (String.eqb (Bs4.name t) "a"); [|discriminate].
  destruct (Bs4.attrs t !! "href") as [h|]; [eauto | discriminate].
Qed.

Lemma anchor_filter_none (t : Bs4.Tag) :
  Bs4.tag_matches "a" [("href", Bs4.Present)] t = false →
  anchor_href t = None.
Proof.
  unfold Bs4.tag_matches, Bs4.attr_matches, anchor_href. simpl.
  destruct (String.eqb (Bs4.name t) "a"); [|reflexivity].
  destruct (Bs4.attrs t !! "href") as [h|]; [discriminate | reflexivity].
Qed.

Lemma collect_links_filter base ts acc :
  collect_links base
    (List.filter (Bs4.tag_matches "a" [("href", Bs4.Present)]) ts) acc
  = Return (acc ++ List.filter is_http (resolve base <$> omap anchor_href ts))%list.
Proof.
  revert acc. induction ts as [|t ts IH]; intros acc; simpl.
  - by rewrite app_nil_r.
  - destruct (Bs4.tag_matches "a" [("href", Bs4.Present)] t) eqn:E.
    + destruct (anchor_filter_href t E) as (href & Hget & ->).
      simpl. unfold Bs4.getitem. rewrite Hget, IH.
      fold (resolve base href). fold (is_http (resolve base href)).
      destruct (is_http (resolve base href)); [|reflexivity].
      by rewrite <- app_assoc.
    + by rewrite (anchor_filter_none t E), IH.
Qed.

Lemma collect_links_spec base soup :
  collect_links base (Bs4.find_all soup "a" [("href", Bs4.Present)]) []
  = Return (List.filter is_http (resolve base <$> hrefs soup)).
Proof. apply collect_links_filter. Qed.

(** *** [find] against the document *)

Lemma head_filter_find {A} (P : A → bool) (l : list A) :
  head (List.filter P l) = List.find P l.
Proof.
  induction l as [|x l IH]; simpl; [reflexivity|].
  destruct (P x); [reflexivity | exact IH].
Qed.

Lemma title_filter t : Bs4.tag_matches "title" [] t = is_title t.
Proof. unfold Bs4.tag_matches, is_title. simpl. apply andb_true_r. Qed.

Lemma description_filter t :
  Bs4.tag_matches "meta" [("name", Bs4.Equals "description")] t
  = is_description_meta t.
Proof.
  unfold Bs4.tag_matches, Bs4.attr_matches, is_description_meta. simpl.
  f_equal. rewrite andb_true_r.
  destruct (Bs4.attrs t !! "name") as [v|].
  - destruct (String.eqb_spec v "description") as [->|Hne].
    + symmetry. by apply bool_decide_eq_true.
    + symmetry. apply bool_decide_eq_false. congruence.
  - symmetry. by apply bool_decide_eq_false.
Qed.

Lemma find_title soup :
  Bs4.find soup "title" [] = List.find is_title (Bs4.tags soup).
Proof.
  unfold Bs4.find, Bs4.find_all.
  rewrite (List.filter_ext _ _ title_filter). apply head_filter_find.
Qed.

Lemma find_description soup :
  Bs4.find soup "meta" [("name", Bs4.Equals "description")]
  = List.find is_description_meta (Bs4.tags soup).
Proof.
  unfold Bs4.find, Bs4.find_all.
  rewrite (List.filter_ext _ _ description_filter). apply head_filter_find.
Qed.

Lemma find_first_where (P : Bs4.Tag → bool) ts t :
  first_where P ts t → List.find P ts = Some t.
Proof.
  intros (before & after & -> & Hb & Ht).
  induction Hb as [|x before Hx _ IH]; simpl.
  - by rewrite Ht.
  - by rewrite Hx.
Qed.

Lemma find_none_where (P : Bs4.Tag → bool) ts :
  none_where P ts → List.find P ts = None.
Proof.
  intros H. induction H as [|x ts Hx _ IH]; simpl; [reflexivity|].
  by rewrite Hx.
Qed.

(** *** [strip] *)

Lemma lstrip_cases s :
  Py.lstrip s = "" ∨ ∃ a s', Py.lstrip s = String a s' ∧ Py.isspace a = false.
Proof.
  induction s as [|a s IH]; simpl; [by left|].
  destruct (Py.isspace a) eqn:E; [exact IH | right; eauto].
Qed.

Lemma rstrip_head a s :
  Py.isspace a = false → ∃ s', Py.rstrip (String a s) = String a s'.
Proof. intros E. simpl. destruct (Py.rstrip s); rewrite ?E; eauto. Qed.

Lemma rstrip_ends s : ends_space (Py.rstrip s) = false.
Proof.
  induction s as [|a s IH]; [reflexivity|]. simpl.
  destruct (Py.rstrip s) as [|b r]; [|exact IH].
  destruct (Py.isspace a) eqn:E; [reflexivity | exact E].
Qed.

Lemma rstrip_rstrip s : Py.rstrip (Py.rstrip s) = Py.rstrip s.
Proof.
  induction s as [|a s IH]; [reflexivity|]. simpl.
  destruct (Py.rstrip s) as [|b r] eqn:Hr.
  - destruct (Py.isspace a) eqn:E; [reflexivity|]. simpl. by rewrite E.
  - change (Py.rstrip (String a (String b r)))
      with (match Py.rstrip (String b r) with
            | EmptyString =>
                if Py.isspace a then EmptyString else String a EmptyString
            | r' => String a r'
            end).
    by rewrite IH.
Qed.

Lemma strip_starts s : starts_space (Py.strip s) = false.
Proof.
  unfold Py.strip. destruct (lstrip_cases s) as [->|(a & s' & -> & E)];
    [reflexivity|].
  destruct (rstrip_head a s' E) as [r ->]. exact E.
Qed.

Lemma strip_ends s : ends_space (Py.strip s) = false.
Proof. apply rstrip_ends. Qed.

Lemma lstrip_fixed s : starts_space s = false → Py.lstrip s = s.
Proof. destruct s as [|a s]; simpl; [done|]. by intros ->. Qed.

Lemma strip_strip s : Py.strip (Py.strip s) = Py.strip s.
Proof.
  unfold Py.strip at 1. rewrite (lstrip_fixed _ (strip_starts s)).
  apply rstrip_rstrip.
Qed.

Lemma lstrip_all_space s : all_space s = true → Py.lstrip s = "".
Proof.
  induction s as [|a s IH]; simpl; [done|].
  intros [-> H]%andb_true_iff. auto.
Qed.

Lemma strip_all_space s : all_space s = true → Py.strip s = "".
Proof. intros H. unfold Py.strip. by rewrite lstrip_all_space. Qed.

Lemma lstrip_empty s : Py.lstrip s = "" → all_space s = true.
Proof.
  induction s as [|a s IH]; simpl; [done|].
  destruct (Py.isspace a); [exact IH | discriminate].
Qed.

Lemma strip_empty_iff s : Py.strip s = "" ↔ all_space s = true.
Proof.
  split; [|apply strip_all_space].
  unfold Py.strip. destruct (lstrip_cases s) as [H|(a & s' & H & E)].
  - intros _. by apply lstrip_empty.
  - rewrite H. destruct (rstrip_head a s' E) as [r ->]. discriminate.
Qed.

(** *** [extract_page_info], case by case *)

Lemma extract_page_info_parsed a s soup u progress task_id st :
  BeautifulSoup (String a s) = Return soup →
  extract_page_info (Response 200 (Return (String a s))) u progress task_id st
  = match advance progress task_id st with
    | (Return _, st2) => (Return (spec_page u soup), st2)
    | (Raise e, st2) => (Raise e, st2)
    end.
Proof.
  intros Hsoup. unfold extract_page_info, bind.
  rewrite fetch_url_body. unfold lift at 1. rewrite Hsoup.
  unfold lift. rewrite collect_links_spec.
  destruct (advance progress task_id st) as [[[]|e] st2]; [|reflexivity].
  unfold ret, spec_page, spec_title, spec_description, spec_links, base_of.
  by rewrite find_title, find_description.
Qed.

Lemma extract_page_info_rejected a s e u progress task_id st :
  BeautifulSoup (String a s) = Raise e →
  extract_page_info (Response 200 (Return (String a s))) u progress task_id st
  = (Raise e, st).
Proof.
  intros Hsoup. unfold extract_page_info, bind.
  rewrite fetch_url_body. unfold lift. by rewrite Hsoup.
Qed.

Lemma extract_page_info_no_body got u progress task_id st st1 :
  fetch_url got u st = (Return None, st1)
  ∨ fetch_url got u st = (Return (Some ""), st1) →
  extract_page_info got u progress task_id st
  = match advance progress task_id st1 with
    | (Return _, st2) => (Return (failure u), st2)
    | (Raise e, st2) => (Raise e, st2)
    end.
Proof.
  unfold extract_page_info, bind. intros [-> | ->];
    by destruct (advance progress task_id st1) as [[[]|e] st2].
Qed.

Lemma extract_page_info_fetch_raised got u progress task_id st e st1 :
  fetch_url got u st = (Raise e, st1) →
  extract_page_info got u progress task_id st = (Raise e, st1).
Proof. unfold extract_page_info, bind. by intros ->. Qed.

(** What the coroutine gives on an outcome, whatever the store: the record of
    the page, the exception of the parser, the failure record, or the
    [MarkupError] of the handler's print. *)
Lemma headless_cases got u :
  (∃ a s soup, got = Response 200 (Return (String a s))
               ∧ BeautifulSoup (String a s) = Return soup
               ∧ headless got u = Return (spec_page u soup))
  ∨ (∃ a s e, got = Response 200 (Return (String a s))
              ∧ BeautifulSoup (String a s) = Raise e
              ∧ headless got u = Raise e)
  ∨ ((fetch_fails got = true ∨ got = Response 200 (Return ""))
     ∧ headless got u = Return (failure u))
  ∨ (fetch_fails got = true ∧ ∃ m, headless got u = Raise (MarkupError m)).
Proof.
  unfold headless.
  set (st0 := {| console := []; bar := Rich.new |}).
  destruct (fetch_url_cases got u)
    as [(body & -> & H)|[(Hf & line & _ & H)|(Hf & m & H)]].
  - destruct body as [|a s].
    + right. right. left. split; [by right|].
      by rewrite (extract_page_info_no_body _ _ _ _ st0 st0);
        [|right; apply H].
    + destruct (BeautifulSoup (String a s)) as [soup|e] eqn:Hsoup.
      * left. exists a, s, soup. do 2 (split; [done|]).
        by rewrite (extract_page_info_parsed _ _ soup).
      * right. left. exists a, s, e. do 2 (split; [done|]).
        by rewrite (extract_page_info_rejected _ _ e).
  - right. right. left. split; [by left|].
    by erewrite extract_page_info_no_body; [|left; apply H].
  - right. right. right. split; [done|]. exists m.
    by erewrite extract_page_info_fetch_raised; [|apply H].
Qed.

(** The coroutine, split at the progress signal: the record or the exception
    is that of the headless run, the console is that of [fetch_url], and the
    bar is touched by [advance] alone. *)
Lemma extract_page_info_split got u progress task_id st :
  extract_page_info got u progress task_id st
  = match headless got u with
    | Return r =>
        match advance progress task_id (fetch_url got u st).2 with
        | (Return _, st2) => (Return r, st2)
        | (Raise e, st2) => (Raise e, st2)
        end
    | Raise e => (Raise e, (fetch_url got u st).2)
    end.
Proof.
  unfold headless.
  set (st0 := {| console := []; bar := Rich.new |}).
  destruct (fetch_url_cases got u)
    as [(body & -> & H)|[(Hf & line & _ & H)|(Hf & m & H)]].
  - rewrite (H st). cbn [snd]. destruct body as [|a s].
    + rewrite (extract_page_info_no_body _ _ _ _ st st),
        (extract_page_info_no_body _ _ None None st0 st0);
        [done | right; apply H | right; apply H].
    + destruct (BeautifulSoup (String a s)) as [soup|e] eqn:Hsoup.
      * by rewrite !(extract_page_info_parsed _ _ soup).
      * by rewrite !(extract_page_info_rejected _ _ e).
  - rewrite (H st). cbn [snd].
    rewrite (extract_page_info_no_body _ _ _ _ st _ (or_introl (H st))),
      (extract_page_info_no_body _ _ None None st0 _ (or_introl (H st0))).
    reflexivity.
  - rewrite (H st). cbn [snd].
    by rewrite (extract_page_info_fetch_raised _ _ _ _ st _ _ (H st)),
      (extract_page_info_fetch_raised _ _ None None st0 _ _ (H st0)).
Qed.

Lemma headless_url got u r : headless got u = Return r → url r = u.
Proof.
  intros H.
  destruct (headless_cases got u)
    as [(a & s & soup & _ & _ & Hh)|[(a & s & e & _ & _ & Hh)
        |[[_ Hh]|(_ & m & Hh)]]]; rewrite Hh in H; by simplify_eq.
Qed.

(** With the task id [0] the coroutine leaves the bar alone. *)
Lemma extract_page_info_falsy got u progress st :
  extract_page_info got u progress (Some 0) st
  = (headless got u, (fetch_url got u st).2).
Proof.
  rewrite extract_page_info_split, advance_falsy.
  by destruct (headless got u).
Qed.

Lemma extract_page_info_safe got u progress task_id st :
  advance_safe progress task_id (bar st) = true →
  ∃ st', extract_page_info got u progress task_id st = (headless got u, st').
Proof.
  intros Hsafe. rewrite extract_page_info_split.
  rewrite <- (fetch_url_bar got u st) in Hsafe.
  destruct (advance_returns _ _ _ Hsafe) as (st' & -> & _).
  destruct (headless got u); eauto.
Qed.

Lemma extract_page_info_console got u progress task_id st :
  console (extract_page_info got u progress task_id st).2
  = console (fetch_url got u st).2.
Proof.
  rewrite extract_page_info_split.
  pose proof (advance_console progress task_id (fetch_url got u st).2) as H.
  destruct (headless got u); [|done].
  by destruct (advance _ _ _) as [[[]|e] st2].
Qed.

Lemma extract_page_info_returns got u progress task_id st r :
  (extract_page_info got u progress task_id st).1 = Return r →
  headless got u = Return r.
Proof.
  rewrite extract_page_info_split.
  destruct (headless got u); [|done].
  by destruct (advance _ _ _) as [[[]|e] st2].
Qed.

(** *** Counting coroutines *)

Lemma count_insert {A} (f : A → bool) (l : list A) i x y :
  l !! i = Some x →
  (length (List.filter f (<[i:=y]> l)) + Nat.b2n (f x)
   = length (List.filter f l) + Nat.b2n (f y))%nat.
Proof.
  revert i. induction l as [|z l IH]; intros [|i] Hi; simplify_eq/=.
  - destruct (f x), (f y); simpl; lia.
  - specialize (IH i Hi). destruct (f z); simpl; lia.
Qed.

Lemma pending_zero cs : pending cs = 0%nat → Forall (λ c, finished c = true) cs.
Proof.
  unfold pending. induction cs as [|c cs IH]; simpl; [constructor|].
  destruct (finished c) eqn:E; simpl; [|discriminate].
  intros H. constructor; auto.
Qed.

Lemma pending_pos cs :
  pending cs ≠ 0%nat → ∃ i c, cs !! i = Some c ∧ finished c = false.
Proof.
  unfold pending. induction cs as [|c cs IH]; simpl; [done|].
  destruct (finished c) eqn:E; simpl.
  - intros H. destruct (IH H) as (i & c' & Hi & Hc). by exists (S i), c'.
  - intros _. by exists 0%nat, c.
Qed.

(** *** One wake-up of the loop *)

Section Steps.

Variable urls : list string.
Variable max_concurrent : Z.

Lemma step_connect task_id L i L' :
  step urls max_concurrent task_id L (Connect i) = Some L' →
  coros L !! i = Some Waiting
  ∧ 0 < available max_concurrent (coros L)
  ∧ L' = {| coros := <[i := InFlight]> (coros L);
            raised := raised L; store := store L |}.
Proof.
  simpl. destruct (coros L !! i) as [[| |r]|]; try discriminate.
  destruct (0 <? available _ _) eqn:E; [|discriminate].
  apply Z.ltb_lt in E. by intros [= <-].
Qed.

Lemma step_redirect task_id L i L' :
  step urls max_concurrent task_id L (Redirect i) = Some L' →
  coros L !! i = Some InFlight
  ∧ L' = {| coros := <[i := Waiting]> (coros L);
            raised := raised L; store := store L |}.
Proof.
  simpl. destruct (coros L !! i) as [[| |r]|]; try discriminate.
  by intros [= <-].
Qed.

Lemma step_settle L i got L' :
  step urls max_concurrent 0 L (Settle i got) = Some L' →
  ∃ c u, coros L !! i = Some c ∧ may_settle c got = true
         ∧ urls !! i = Some u
         ∧ L' = {| coros := <[i := Finished (headless got u)]> (coros L);
                   raised := first_raised (raised L) (headless got u);
                   store := (fetch_url got u (store L)).2 |}.
Proof.
  unfold step. destruct (coros L !! i) as [c|]; [|discriminate].
  destruct (urls !! i) as [u|]; [|discriminate].
  destruct (may_settle c got) eqn:E; [|discriminate].
  rewrite extract_page_info_falsy. intros [= <-]. by exists c, u.
Qed.

Lemma may_settle_unfinished c got :
  may_settle c got = true → finished c = false.
Proof. by destruct c. Qed.

(** Every wake-up replaces one unfinished coroutine and leaves the bar as it
    was; only a settlement can finish it. *)
Lemma step_inv L ev L' :
  step urls max_concurrent 0 L ev = Some L' →
  bar (store L') = bar (store L)
  ∧ ∃ i c c', coros L !! i = Some c ∧ finished c = false
      ∧ coros L' = <[i := c']> (coros L)
      ∧ (((ev = Connect i ∨ ev = Redirect i) ∧ finished c' = false
          ∧ raised L' = raised L)
         ∨ ∃ got u, ev = Settle i got ∧ urls !! i = Some u
                    ∧ c' = Finished (headless got u)
                    ∧ raised L' = first_raised (raised L) (headless got u)).
Proof.
  destruct ev as [i|i|i got]; intros H.
  - apply step_connect in H as (Hi & _ & ->). simpl.
    split; [reflexivity|]. exists i, Waiting, InFlight.
    do 3 (split; [done|]). left. auto.
  - apply step_redirect in H as (Hi & ->). simpl.
    split; [reflexivity|]. exists i, InFlight, Waiting.
    do 3 (split; [done|]). left. auto.
  - apply step_settle in H as (c & u & Hi & Hc & Hu & ->). simpl.
    split; [apply fetch_url_bar|].
    exists i, c, (Finished (headless got u)).
    split; [done|]. split; [by eapply may_settle_unfinished|].
    split; [done|]. right. by exists got, u.
Qed.

End Steps.

(** *** Runs of the loop *)

Section Runs.

Variable urls : list string.
Variable max_concurrent : Z.

Lemma run_app task_id L s1 s2 :
  run urls max_concurrent task_id L (s1 ++ s2)
  = match run urls max_concurrent task_id L s1 with
    | Some L1 => run urls max_concurrent task_id L1 s2
    | None => None
    end.
Proof.
  revert L. induction s1 as [|ev s1 IH]; intros L; simpl; [reflexivity|].
  destruct (step _ _ _ L ev); [apply IH | reflexivity].
Qed.

(** What a run does to each coroutine: a finished one stays as it is, an
    unfinished one finishes exactly when the schedule delivers it an outcome,
    and then with what the coroutine gives on that outcome. *)
Lemma run_coros schedule : ∀ L0 L,
  run urls max_concurrent 0 L0 schedule = Some L →
  length (coros L) = length (coros L0)
  ∧ bar (store L) = bar (store L0)
  ∧ ∀ i c0, coros L0 !! i = Some c0 →
      if finished c0 then coros L !! i = Some c0
      else match delivered schedule i with
           | Some got =>
               ∃ u, urls !! i = Some u
                    ∧ coros L !! i = Some (Finished (headless got u))
           | None => ∃ c, coros L !! i = Some c ∧ finished c = false
           end.
Proof.
  induction schedule as [|ev rest IH]; intros L0 L H; cbn [run] in H.
  - injection H as <-. repeat split.
    intros i c0 Hi. destruct (finished c0) eqn:E; [done|]. simpl. eauto.
  - destruct (step urls max_concurrent 0 L0 ev) as [L1|] eqn:Hstep;
      [|discriminate].
    destruct (IH _ _ H) as (Hlen & Hb & Hc).
    destruct (step_inv _ _ _ _ _ Hstep)
      as (Hb1 & j & c & c' & Hj & Hcf & Hcs & Hev).
    split; [by rewrite Hlen, Hcs, length_insert|].
    split; [congruence|].
    intros i c0 Hi. destruct (decide (i = j)) as [->|Hne].
    + assert (c0 = c) as -> by congruence. rewrite Hcf.
      assert (coros L1 !! j = Some c') as H1.
      { rewrite Hcs. apply list_lookup_insert_eq. by eapply lookup_lt_Some. }
      specialize (Hc j c' H1).
      destruct Hev as [([-> | ->] & Hf' & _)|(got & u & -> & Hu & -> & _)];
        cbn [delivered finished] in *.
      * by rewrite Hf' in Hc.
      * by rewrite Hf' in Hc.
      * rewrite Nat.eqb_refl. eauto.
    + assert (coros L1 !! i = Some c0) as H1.
      { rewrite Hcs. by rewrite list_lookup_insert_ne. }
      specialize (Hc i c0 H1). destruct (finished c0); [done|].
      destruct Hev as [([-> | ->] & _)|(got & u & -> & Hu & -> & _)];
        cbn [delivered]; try exact Hc.
      destruct (Nat.eqb_spec j i); [congruence | exact Hc].
Qed.

(** [gather] knows of an exception exactly when a coroutine raised. *)
Lemma run_raised schedule : ∀ L0 L,
  run urls max_concurrent 0 L0 schedule = Some L →
  raised_inv L0 → raised_inv L.
Proof.
  induction schedule as [|ev rest IH]; intros L0 L H Hinv; cbn [run] in H.
  - by injection H as <-.
  - destruct (step urls max_concurrent 0 L0 ev) as [L1|] eqn:Hstep;
      [|discriminate].
    apply (IH _ _ H). clear IH H.
    destruct (step_inv _ _ _ _ _ Hstep)
      as (_ & j & c & c' & Hj & Hcf & Hcs & Hev).
    assert (∀ k, k ≠ j → coros L1 !! k = coros L0 !! k) as Hother.
    { intros k Hk. rewrite Hcs. by rewrite list_lookup_insert_ne. }
    assert (coros L1 !! j = Some c') as Hnew.
    { rewrite Hcs. apply list_lookup_insert_eq. by eapply lookup_lt_Some. }
    assert (raised L0 = None ∧ (∀ e, c' ≠ Finished (Raise e))
                     ∧ raised L1 = None
            ∨ (∃ e, raised L0 = None ∧ c' = Finished (Raise e)
                    ∧ raised L1 = Some e)
            ∨ (∃ e, raised L0 = Some e ∧ raised L1 = Some e)) as Hcases.
    { destruct Hev as [(_ & Hf' & Hr)|(got & u & _ & _ & -> & Hr)].
      - destruct (raised L0) as [e|] eqn:Hr0.
        + right. right. by exists e.
        + left. split; [done|]. split; [|done]. intros e ->. discriminate.
      - destruct (raised L0) as [e|] eqn:Hr0.
        + right. right. exists e. split; [done|]. rewrite Hr.
          by destruct (headless got u).
        + destruct (headless got u) as [r|e] eqn:Hh.
          * left. split; [done|]. split; [congruence | by rewrite Hr]. 
          * right. left. exists e. by rewrite Hr. }
    unfold raised_inv in *.
    destruct Hcases as [(Hr0 & Hc' & ->)|[(e & Hr0 & -> & ->)|(e & Hr0 & ->)]];
      rewrite Hr0 in Hinv.
    + intros k e Hk. destruct (decide (k = j)) as [->|Hne].
      * rewrite Hnew in Hk. injection Hk as ->. by eapply Hc'.
      * rewrite (Hother k Hne) in Hk. by eapply Hinv.
    + by exists j.
    + destruct Hinv as [k Hk]. exists k.
      destruct (decide (k = j)) as [->|Hne]; [|by rewrite Hother].
      rewrite Hj in Hk. injection Hk as ->. discriminate.
Qed.

(** A request can always time out, so an unfinished coroutine can always be
    finished. *)
Lemma step_timeout L i c :
  coros L !! i = Some c → finished c = false →
  length (coros L) = length urls →
  ∃ L', step urls max_concurrent 0 L (Settle i (Raised TimeoutError)) = Some L'
        ∧ length (coros L') = length urls
        ∧ (pending (coros L') + 1 = pending (coros L))%nat.
Proof.
  intros Hi Hc Hlen.
  destruct (lookup_lt_is_Some_2 urls i) as [u Hu].
  { rewrite <- Hlen. by eapply lookup_lt_Some. }
  assert (may_settle c (Raised TimeoutError) = true) as Hm by by destruct c.
  eexists. unfold step. rewrite Hi, Hu, Hm, extract_page_info_falsy.
  split; [reflexivity|]. cbn [coros].
  split; [by rewrite length_insert|].
  pose proof (count_insert (λ c, negb (finished c)) (coros L) i c
                (Finished (headless (Raised TimeoutError) u)) Hi) as Hn.
  cbn beta in Hn. rewrite Hc in Hn. cbn [finished negb Nat.b2n] in Hn.
  unfold pending. lia.
Qed.

Lemma run_to_completion n : ∀ L,
  pending (coros L) = n → length (coros L) = length urls →
  ∃ more L', run urls max_concurrent 0 L more = Some L'
             ∧ Forall (λ c, finished c = true) (coros L').
Proof.
  induction n as [|n IH]; intros L Hn Hlen.
  - exists [], L. split; [reflexivity | by apply pending_zero].
  - destruct (pending_pos (coros L)) as (i & c & Hi & Hc); [lia|].
    destruct (step_timeout L i c Hi Hc Hlen) as (L1 & Hstep & Hlen1 & Hp).
    destruct (IH L1) as (more & L' & Hrun & Hall); [lia | exact Hlen1 |].
    exists (Settle i (Raised TimeoutError) :: more), L'.
    split; [|exact Hall]. cbn [run]. by rewrite Hstep.
Qed.

End Runs.

(** *** The batch *)

Section BatchFacts.

Variable urls : list string.
Variable max_concurrent : Z.
Variable out : list string.

Lemma start_task_id : (start urls out).1 = 0.
Proof. reflexivity. Qed.

Lemma start_coros i u :
  urls !! i = Some u → coros (start urls out).2 !! i = Some Waiting.
Proof. intros H. simpl. by rewrite list_lookup_fmap, H. Qed.

Lemma start_advanced :
  Rich.advanced 0 (bar (store (start urls out).2)) = Some 0.
Proof. unfold Rich.advanced. simpl. by rewrite lookup_insert_eq. Qed.


Lemma start_raised_inv : raised_inv (start urls out).2.
Proof.
  unfold raised_inv. simpl. intros i e. rewrite list_lookup_fmap.
  by destruct (urls !! i).
Qed.

Lemma run_from_start schedule L :
  run urls max_concurrent 0 (start urls out).2 schedule = Some L →
  length (coros L) = length urls
  ∧ raised_inv L
  ∧ bar (store L) = bar (store (start urls out).2)
  ∧ ∀ i u, urls !! i = Some u →
      match delivered schedule i with
      | Some got => coros L !! i = Some (Finished (headless got u))
      | None => ∃ c, coros L !! i = Some c ∧ finished c = false
      end.
Proof.
  intros H. destruct (run_coros _ _ _ _ _ H) as (Hlen & Hb & Hc).
  split; [rewrite Hlen; simpl; by rewrite length_fmap|].
  split; [by eapply run_raised, start_raised_inv|].
  split; [assumption|].
  intros i u Hu. specialize (Hc i Waiting (start_coros i u Hu)). simpl in Hc.
  destruct (delivered schedule i) as [got|]; [|exact Hc].
  destruct Hc as (u' & Hu' & Hc). congruence.
Qed.

Lemma process_urls_unfold schedule :
  process_urls urls max_concurrent out schedule
  = match run urls max_concurrent 0 (start urls out).2 schedule with
    | Some L => gather L
    | None => None
    end.
Proof. reflexivity. Qed.

Lemma process_urls_run schedule res :
  process_urls urls max_concurrent out schedule = Some res →
  ∃ L, run urls max_concurrent 0 (start urls out).2 schedule = Some L
       ∧ gather L = Some res.
Proof.
  rewrite process_urls_unfold.
  destruct (run urls max_concurrent 0 _ schedule) as [L|]; [eauto | done].
Qed.

(** What [gather] gives: the list, as long as the URL list and with at each
    index the record of the outcome delivered to the coroutine of that index;
    or the exception that a coroutine gave on its outcome. *)
Lemma process_urls_results schedule res :
  process_urls urls max_concurrent out schedule = Some res →
  match res with
  | Return rs =>
      length rs = length urls
      ∧ ∀ i u, urls !! i = Some u →
          ∃ got r, delivered schedule i = Some got ∧ rs !! i = Some r
                   ∧ headless got u = Return r
  | Raise e =>
      ∃ i u got, urls !! i = Some u ∧ delivered schedule i = Some got
                 ∧ headless got u = Raise e
  end.
Proof.
  intros (L & Hrun & Hg)%process_urls_run.
  destruct (run_from_start _ _ Hrun) as (Hlen & Hinv & _ & Hc).
  unfold gather in Hg. unfold raised_inv in Hinv.
  destruct (raised L) as [e|].
  - injection Hg as <-. destruct Hinv as [i Hi].
    destruct (lookup_lt_is_Some_2 urls i) as [u Hu].
    { rewrite <- Hlen. by eapply lookup_lt_Some. }
    specialize (Hc i u Hu). exists i, u.
    destruct (delivered schedule i) as [got|].
    + exists got. do 2 (split; [done|]). congruence.
    + destruct Hc as (c & Hi' & Hf). rewrite Hi in Hi'.
      injection Hi' as <-. discriminate.
  - destruct (mapM returned (coros L)) as [rs|] eqn:Hm; [|discriminate].
    injection Hg as <-. apply mapM_Some in Hm.
    split; [by rewrite <- (Forall2_length _ _ _ Hm)|].
    intros i u Hu. specialize (Hc i u Hu).
    destruct (delivered schedule i) as [got|].
    + destruct (Forall2_lookup_l _ _ _ _ _ Hm Hc) as (r & Hr' & Hret).
      exists got, r. repeat split; [exact Hr'|].
      simpl in Hret. by destruct (headless got u); simplify_eq.
    + destruct Hc as (c & Hi & Hf).
      destruct (Forall2_lookup_l _ _ _ _ _ Hm Hi) as (r & _ & Hret).
      destruct c as [| |[?|?]]; discriminate.
Qed.

(** When no coroutine raises on what it is delivered, [gather] returns. *)
Lemma process_urls_returns schedule res :
  process_urls urls max_concurrent out schedule = Some res →
  no_raise urls schedule →
  ∃ rs, res = Return rs.
Proof.
  intros H Hno. apply process_urls_results in H.
  destruct res as [rs|e]; [eauto|].
  destruct H as (i & u & got & Hu & Hd & Hh).
  destruct (Hno i u got Hu Hd) as [r Hr]. congruence.
Qed.

(** Every reachable loop can be run on until [gather] returns or raises. *)
Lemma process_urls_completes schedule L :
  run urls max_concurrent 0 (start urls out).2 schedule = Some L →
  ∃ more res,
    process_urls urls max_concurrent out (schedule ++ more) = Some res.
Proof.
  intros Hrun. destruct (run_from_start _ _ Hrun) as (Hlen & _).
  destruct (run_to_completion urls max_concurrent _ L eq_refl Hlen)
    as (more & L' & Hmore & Hall).
  assert (run urls max_concurrent 0 (start urls out).2 (schedule ++ more)
          = Some L') as Hrun'.
  { by rewrite run_app, Hrun. }
  destruct (run_from_start _ _ Hrun') as (Hlen' & Hinv & _ & _).
  exists more. rewrite process_urls_unfold, Hrun'. unfold gather.
  unfold raised_inv in Hinv. destruct (raised L') as [e|]; [by eexists|].
  assert (is_Some (mapM returned (coros L'))) as [rs Hrs].
  { apply mapM_is_Some, Forall_lookup. intros i c Hi.
    rewrite Forall_lookup in Hall. specialize (Hall i c Hi).
    destruct c as [| |[r|e]]; try discriminate; [by eexists|].
    by destruct (Hinv i e). }
  exists (Return rs). by rewrite Hrs.
Qed.

(** The connector never has more than [max_concurrent] connections out. *)
Lemma step_cap task_id L ev L' :
  0 < max_concurrent →
  step urls max_concurrent task_id L ev = Some L' →
  Z.of_nat (acquired (coros L)) ≤ max_concurrent →
  Z.of_nat (acquired (coros L')) ≤ max_concurrent.
Proof.
  intros Hpos Hstep Hle. destruct ev as [i|i|i got].
  - apply step_connect in Hstep as (Hi & Hav & ->). cbn [coros].
    pose proof (count_insert in_flight (coros L) i Waiting InFlight Hi) as Hn.
    unfold available in Hav.
    destruct (Z.eqb_spec max_concurrent 0); [lia|].
    unfold acquired in *. simpl in Hn. lia.
  - apply step_redirect in Hstep as (Hi & ->). cbn [coros].
    pose proof (count_insert in_flight (coros L) i InFlight Waiting Hi) as Hn.
    unfold acquired in *. simpl in Hn. lia.
  - unfold step in Hstep.
    destruct (coros L !! i) as [c|] eqn:Hi; [|discriminate].
    destruct (urls !! i) as [u|]; [|discriminate].
    destruct (may_settle c got); [|discriminate].
    destruct (extract_page_info _ _ _ _ _) as [r st].
    injection Hstep as <-. cbn [coros].
    pose proof (count_insert in_flight (coros L) i c (Finished r) Hi) as Hn.
    unfold acquired in *. simpl in Hn. lia.
Qed.

Lemma run_cap task_id schedule : ∀ L L',
  0 < max_concurrent →
  run urls max_concurrent task_id L schedule = Some L' →
  Z.of_nat (acquired (coros L)) ≤ max_concurrent →
  Z.of_nat (acquired (coros L')) ≤ max_concurrent.
Proof.
  induction schedule as [|ev rest IH]; intros L L' Hpos Hrun Hle.
  - by injection Hrun as <-.
  - cbn [run] in Hrun.
    destruct (step urls max_concurrent task_id L ev) as [L1|] eqn:Hstep;
      [|discriminate].
    eapply IH; eauto using step_cap.
Qed.

Lemma start_acquired : acquired (coros (start urls out).2) = 0%nat.
Proof.
  unfold acquired. simpl. induction urls as [|u us IH]; [reflexivity|].
  exact IH.
Qed.

End BatchFacts.

(** The record of a fetched body that the parser accepts. *)
Lemma headless_fetched html soup u :
  BeautifulSoup html = Return soup →
  headless (Response 200 (Return html)) u
  = Return (if decide (html = "") then failure u else spec_page u soup).
Proof.
  intros Hsoup. unfold headless.
  set (st0 := {| console := []; bar := Rich.new |}).
  destruct html as [|a s].
  - by rewrite (extract_page_info_no_body _ _ _ _ st0 st0); [|right].
  - by rewrite (extract_page_info_parsed _ _ soup).
Qed.

Lemma headless_fails got u r :
  fetch_fails got = true → headless got u = Return r → r = failure u.
Proof.
  intros Hf Hr.
  destruct (headless_cases got u)
    as [(a & s & soup & -> & _)|[(a & s & e & -> & _)
        |[[_ Hh]|(_ & m & Hh)]]]; try discriminate; congruence.
Qed.

Lemma handled_cases u e st :
  (∃ st', handled u e st = (Return None, st'))
  ∨ ∃ m, markup_error (error_line u e) = Some m
         ∧ handled u e st = (Raise (MarkupError m), st).
Proof.
  unfold handled. destruct (markup_error (error_line u e)) as [m|]; eauto.
Qed.

Lemma fetch_url_fails_cases got u st :
  fetch_fails got = true →
  (∃ st', fetch_url got u st = (Return None, st'))
  ∨ ∃ e, refused e ∧ fetch_url got u st = (Raise e, st).
Proof.
  assert (∀ e, (∃ st', handled u e st = (Return None, st'))
               ∨ ∃ e', refused e' ∧ handled u e st = (Raise e', st)) as Hh.
  { intros e. destruct (handled_cases u e st) as [?|(m & Hm & H)]; [by left|].
    right. exists (MarkupError m). split; [|done]. by exists (error_line u e), m. }
  intros Hf. destruct (outcome_cases got)
    as [[body ->]|[_ [(status & text & -> & Hs)|[[e ->]|[e ->]]]]].
  - discriminate.
  - rewrite (fetch_url_status _ _ _ _ Hs).
    destruct (markup_error (status_line u status)); [apply Hh | eauto].
  - rewrite fetch_url_text_raised. apply Hh.
  - rewrite fetch_url_raised. apply Hh.
Qed.

(** ** The claims *)

(** C1, amended. For every list of URLs, whatever the order in which the
    fetches are connected, redirected and settle: when no coroutine of the
    batch raises on what it is delivered, [process_urls] returns one record
    per URL, in input order (the list is as long as the input, and the record
    at index [i] has the URL at index [i] and is the record of the outcome
    delivered to that URL's fetch); when [process_urls] raises, the exception
    is that of a coroutine of the batch.  And the batch can always run on
    until [gather] returns or raises. *)
Theorem process_urls_one_record_per_url_in_order
    (urls : list string) (max_concurrent : Z) (out : list string) :
  (∀ schedule res,
     process_urls urls max_concurrent out schedule = Some res →
     (no_raise urls schedule → ∃ rs, res = Return rs)
     ∧ (∀ rs, res = Return rs →
          length rs = length urls
          ∧ ∀ i u, urls !! i = Some u →
              ∃ got r, delivered schedule i = Some got
                       ∧ rs !! i = Some r ∧ url r = u
                       ∧ headless got u = Return r)
     ∧ (∀ e, res = Raise e →
          ∃ i u got, urls !! i = Some u ∧ delivered schedule i = Some got
                     ∧ headless got u = Raise e))
  ∧ (∀ schedule L,
       run urls max_concurrent (start urls out).1 (start urls out).2 schedule
       = Some L →
       ∃ more res,
         process_urls urls max_concurrent out (schedule ++ more) = Some res).
Proof.
  split.
  - intros schedule res H. split; [|split].
    + by eapply process_urls_returns.
    + intros rs ->. apply process_urls_results in H as [Hlen Hrs].
      split; [done|]. intros i u Hu.
      destruct (Hrs i u Hu) as (got & r & Hd & Hi & Hh).
      exists got, r. repeat split; try done. by eapply headless_url.
    + intros e ->. by apply process_urls_results in H.
  - intros schedule L Hrun. by eapply process_urls_completes.
Qed.

(** C2, amended. The links of a fetched page that the parser accepts are the
    hrefs of its anchors in document order, each one that starts with a slash
    put behind the page's scheme://host, only those that then start with
    http:// or https:// kept, cut to the first five.  On a page at
    https://site.com whose anchors are /about, https://x.com/page,
    mailto:a@b.com and #frag, these are https://site.com/about and
    https://x.com/page. *)
Theorem links_resolved_filtered_truncated
    (html : string) (soup : Bs4.Soup) (u : string) (progress : option Ref)
    (task_id : option Z) (st : Store) :
  BeautifulSoup "" = Return [] →
  BeautifulSoup html = Return soup →
  advance_safe progress task_id (bar st) = true →
  ∃ r st',
    extract_page_info (Response 200 (Return html)) u progress task_id st
    = (Return r, st')
    ∧ links r = spec_links (base_of u) soup
    ∧ (urlparse u = {| Urllib.scheme := "https"; Urllib.netloc := "site.com" |} →
       hrefs soup
       = ["/about"; "https://x.com/page"; "mailto:a@b.com"; "#frag"] →
       links r = ["https://site.com/about"; "https://x.com/page"]).
Proof.
  intros Hempty Hsoup Hsafe.
  destruct (extract_page_info_safe (Response 200 (Return html)) u _ _ _ Hsafe)
    as (st' & Hrun).
  rewrite (headless_fetched _ soup) in Hrun by done. eexists _, st'. split; [exact Hrun|].
  assert (links (if decide (html = "") then failure u else spec_page u soup)
          = spec_links (base_of u) soup) as Hlinks.
  { case_decide as Hd; [|reflexivity]. subst html.
    rewrite Hempty in Hsoup. by injection Hsoup as <-. }
  split; [exact Hlinks|].
  intros Hu Hhrefs. rewrite Hlinks. unfold spec_links, base_of.
  rewrite Hhrefs, Hu. reflexivity.
Qed.

(** C3, on the code. The lines that report a failed fetch go through the
    markup parser of rich with the URL and the message in them.  When the
    parser refuses both the status line and the line of the handler, or the
    line of the handler for an exception, the [MarkupError] of the handler's
    print leaves the coroutine: there is no record, and nothing is printed.
    A failed fetch gives either the failure record or such an exception. *)
Theorem failed_fetch_with_refused_line_raises
    (u : string) (progress : option Ref) (task_id : option Z) (st : Store) :
  (∀ status text m m',
     status ≠ 200 →
     markup_error (status_line u status) = Some m →
     markup_error (error_line u (MarkupError m)) = Some m' →
     extract_page_info (Response status text) u progress task_id st
     = (Raise (MarkupError m'), st))
  ∧ (∀ e m',
       markup_error (error_line u e) = Some m' →
       extract_page_info (Raised e) u progress task_id st
       = (Raise (MarkupError m'), st))
  ∧ (∀ got,
       fetch_fails got = true →
       advance_safe progress task_id (bar st) = true →
       (∃ st', extract_page_info got u progress task_id st
               = (Return (failure u), st'))
       ∨ ∃ e, refused e
              ∧ extract_page_info got u progress task_id st = (Raise e, st)).
Proof.
  split; [|split].
  - intros status text m m' Hs Hm Hm'.
    apply extract_page_info_fetch_raised.
    rewrite (fetch_url_status _ _ _ _ Hs), Hm. unfold handled.
    by rewrite Hm'.
  - intros e m' Hm'. apply extract_page_info_fetch_raised.
    rewrite fetch_url_raised. unfold handled. by rewrite Hm'.
  - intros got Hf Hsafe.
    destruct (fetch_url_fails_cases got u st Hf) as [[st1 H]|(e & He & H)].
    + left. pose proof (fetch_url_bar got u st) as Hb.
      rewrite H in Hb. simpl in Hb. rewrite <- Hb in Hsafe.
      destruct (advance_returns _ _ _ Hsafe) as (st' & Hadv & _).
      exists st'.
      by rewrite (extract_page_info_no_body _ _ _ _ st st1), Hadv;
        [|left].
    + right. exists e. split; [done|].
      by apply extract_page_info_fetch_raised.
Qed.

(** C4, amended. For every fetched body that is not empty and that the parser
    accepts: without a title element the title is "No title", without a meta
    tag named description the description is "No description"; otherwise the
    title is the trimmed text of the first title element and the description
    is the trimmed content attribute of the first such meta tag. *)
Theorem sentinels_for_nonempty_body
    (html : string) (soup : Bs4.Soup) (u : string) (progress : option Ref)
    (task_id : option Z) (st : Store) :
  html ≠ "" →
  BeautifulSoup html = Return soup →
  advance_safe progress task_id (bar st) = true →
  ∃ r st',
    extract_page_info (Response 200 (Return html)) u progress task_id st
    = (Return r, st')
    ∧ (none_where is_title (Bs4.tags soup) → title r = Some "No title")
    ∧ (none_where is_description_meta (Bs4.tags soup) →
       description r = Some "No description")
    ∧ (∀ t, first_where is_title (Bs4.tags soup) t →
            title r = Some (Py.strip (Bs4.text t)))
    ∧ (∀ t c,
         first_where is_description_meta (Bs4.tags soup) t →
         Bs4.attrs t !! "content" = Some c →
         description r = Some (Py.strip c)).
Proof.
  intros Hne Hsoup Hsafe. destruct html as [|a s]; [done|].
  destruct (advance_returns _ _ _ Hsafe) as (st' & Hadv & _).
  exists (spec_page u soup), st'. split.
  { by rewrite (extract_page_info_parsed _ _ soup), Hadv. }
  simpl. unfold spec_title, spec_description. repeat split.
  - intros H. by rewrite (find_none_where _ _ H).
  - intros H. by rewrite (find_none_where _ _ H).
  - intros t H. by rewrite (find_first_where _ _ _ H).
  - intros t c H Hc. by rewrite (find_first_where _ _ _ H), Hc.
Qed.


(** C6. With a positive limit, at every point of the batch the number of
    fetches that hold a connection is at most the limit; at the limit no
    further fetch is connected, and below it any waiting fetch can be. *)
Theorem in_flight_fetches_never_exceed_limit
    (urls : list string) (max_concurrent : Z) (out : list string)
    (schedule : list Event) (L : Loop) :
  0 < max_concurrent →
  run urls max_concurrent (start urls out).1 (start urls out).2 schedule
  = Some L →
  Z.of_nat (acquired (coros L)) ≤ max_concurrent
  ∧ (∀ i, Z.of_nat (acquired (coros L)) = max_concurrent →
          step urls max_concurrent (start urls out).1 L (Connect i) = None)
  ∧ (∀ i, coros L !! i = Some Waiting →
          Z.of_nat (acquired (coros L)) < max_concurrent →
          is_Some (step urls max_concurrent (start urls out).1 L
                     (Connect i))).
Proof.
  intros Hpos Hrun. split; [|split].
  - eapply run_cap; eauto. rewrite start_acquired. lia.
  - intros i Hfull. cbn [step].
    destruct (coros L !! i) as [[| |r]|]; try reflexivity.
    unfold available. destruct (Z.eqb_spec max_concurrent 0); [lia|].
    destruct (Z.ltb_spec 0 (max_concurrent - Z.of_nat (acquired (coros L))));
      [lia | reflexivity].
  - intros i Hi Hlt. cbn [step]. rewrite Hi.
    unfold available. destruct (Z.eqb_spec max_concurrent 0); [lia|].
    destruct (Z.ltb_spec 0 (max_concurrent - Z.of_nat (acquired (coros L))));
      [by eexists | lia].
Qed.

(** C7, on the code. The task that [add_task] makes for the batch has the id
    [0], which [if progress and task_id] takes for no task: however far the
    batch has run, the bar of that task has not advanced. *)
Theorem progress_bar_never_advances
    (urls : list string) (max_concurrent : Z) (out : list string)
    (schedule : list Event) (L : Loop) :
  run urls max_concurrent (start urls out).1 (start urls out).2 schedule
  = Some L →
  Rich.advanced (start urls out).1 (bar (store L)) = Some 0.
Proof.
  rewrite start_task_id. intros Hrun.
  destruct (run_from_start _ _ _ _ _ Hrun) as (_ & _ & -> & _).
  apply start_advanced.
Qed.



(** C9, amended. When the first meta tag named description of a fetched page
    that the parser accepts has no content attribute, the description is the
    empty string, not the sentinel. *)
Theorem description_without_content_is_empty
    (html : string) (soup : Bs4.Soup) (u : string) (progress : option Ref)
    (task_id : option Z) (st : Store) (t : Bs4.Tag) :
  BeautifulSoup "" = Return [] →
  BeautifulSoup html = Return soup →
  advance_safe progress task_id (bar st) = true →
  first_where is_description_meta (Bs4.tags soup) t →
  Bs4.attrs t !! "content" = None →
  ∃ r st',
    extract_page_info (Response 200 (Return html)) u progress task_id st
    = (Return r, st')
    ∧ description r = Some ""
    ∧ description r ≠ Some "No description".
Proof.
  intros Hempty Hsoup Hsafe Hfirst Hc. destruct html as [|a s].
  - rewrite Hempty in Hsoup. injection Hsoup as <-.
    destruct Hfirst as (before & after & H & _). by destruct before.
  - destruct (advance_returns _ _ _ Hsafe) as (st' & Hadv & _).
    exists (spec_page u soup), st'. split.
    { by rewrite (extract_page_info_parsed _ _ soup), Hadv. }
    simpl. unfold spec_description.
    rewrite (find_first_where _ _ _ Hfirst), Hc. by split.
Qed.

(** C10. A status 200 with an empty body gives the record of a failed fetch
    (no title, no description, no links), the same record as any failed
    fetch of that URL that gives a record, and not the page record with its
    sentinels. *)
Theorem empty_body_is_a_failed_fetch
    (u : string) (progress : option Ref) (task_id : option Z) (st : Store) :
  advance_safe progress task_id (bar st) = true →
  ∃ st',
    extract_page_info (Response 200 (Return "")) u progress task_id st
    = (Return {| url := u; title := None; description := None; links := [] |},
       st')
    ∧ ∀ got r, fetch_fails got = true →
        (extract_page_info got u progress task_id st).1 = Return r →
        Return r
        = (extract_page_info (Response 200 (Return "")) u progress task_id
             st).1.
Proof.
  intros Hsafe. destruct (advance_returns _ _ _ Hsafe) as (st' & Hadv & _).
  assert (extract_page_info (Response 200 (Return "")) u progress task_id st
          = (Return (failure u), st')) as Hrun.
  { rewrite (extract_page_info_no_body _ _ _ _ st st); [by rewrite Hadv|].
    by right. }
  exists st'. split; [exact Hrun|]. intros got r Hfail Hr.
  rewrite Hrun. apply extract_page_info_returns in Hr. simpl.
  by rewrite (headless_fails _ _ _ Hfail Hr).
Qed.

(** ** Further properties *)

Lemma list_filter_sublist {A} (f : A → bool) (l : list A) :
  List.filter f l `sublist_of` l.
Proof.
  induction l as [|x l IH]; simpl; [constructor|].
  destruct (f x); by constructor.
Qed.

(** *** The records *)

(** X1. The links of a record are at most five and each starts with http://
    or https://; the record of a failed fetch or of an empty body has none,
    and those of a fetched page are hrefs of the page as the parser gives
    them, resolved, in document order. *)
Theorem links_at_most_five_http_in_document_order
    (got : Outcome) (u : string) (progress : option Ref)
    (task_id : option Z) (st : Store) (r : PageResult) :
  (extract_page_info got u progress task_id st).1 = Return r →
  (length (links r) ≤ 5)%nat
  ∧ Forall (λ l, Py.startswith l "http://" = true
                 ∨ Py.startswith l "https://" = true) (links r)
  ∧ (fetch_fails got = true ∨ got = Response 200 (Return "") → links r = [])
  ∧ ∀ html, got = Response 200 (Return html) → html ≠ "" →
      ∃ soup, BeautifulSoup html = Return soup
              ∧ links r `sublist_of` (resolve (base_of u) <$> hrefs soup).
Proof.
  intros H%extract_page_info_returns.
  destruct (headless_cases got u)
    as [(a & s & soup & -> & Hs & Hh)|[(a & s & e & -> & _ & Hh)
        |[[Hg Hh]|(_ & m & Hh)]]]; rewrite Hh in H; try discriminate;
    injection H as <-.
  - simpl. unfold spec_links. split; [|split; [|split]].
    + rewrite length_take. lia.
    + apply Forall_take, Forall_forall. intros l Hl.
      apply list_elem_of_In, filter_In in Hl as [_ Hl].
      by apply orb_true_iff in Hl.
    + by intros [?|?].
    + intros html [= <-] _. exists soup. split; [done|].
      etrans; [apply sublist_take|]. apply list_filter_sublist.
  - simpl. split; [lia|]. split; [constructor|]. split; [done|].
    intros html -> Hne. by destruct Hg as [?|[= ->]].
Qed.

(** X2. A record has no title exactly when the fetch failed or the body was
    empty; then it has no description and no links either, and a record with
    a title has a description.  The URL is always the requested one. *)
Theorem record_has_no_title_iff_no_page
    (got : Outcome) (u : string) (progress : option Ref)
    (task_id : option Z) (st : Store) (r : PageResult) :
  (extract_page_info got u progress task_id st).1 = Return r →
  url r = u
  ∧ (title r = None
     ↔ fetch_fails got = true ∨ got = Response 200 (Return ""))
  ∧ (description r = None ↔ title r = None)
  ∧ (title r = None → links r = []).
Proof.
  intros H%extract_page_info_returns.
  destruct (headless_cases got u)
    as [(a & s & soup & -> & Hs & Hh)|[(a & s & e & -> & _ & Hh)
        |[[Hg Hh]|(_ & m & Hh)]]]; rewrite Hh in H; try discriminate;
    injection H as <-; simpl.
  - split; [reflexivity|]. split; [|split]; try done.
    split; [done|]. by intros [?|?].
  - split; [reflexivity|]. repeat split; auto.
Qed.

(** X3. The title and the description of a record never start or end with
    whitespace. *)
Theorem title_and_description_are_trimmed
    (got : Outcome) (u : string) (progress : option Ref)
    (task_id : option Z) (st : Store) (r : PageResult) :
  (extract_page_info got u progress task_id st).1 = Return r →
  (∀ t, title r = Some t → starts_space t = false ∧ ends_space t = false)
  ∧ (∀ d, description r = Some d →
          starts_space d = false ∧ ends_space d = false).
Proof.
  intros H%extract_page_info_returns.
  destruct (headless_cases got u)
    as [(a & s & soup & -> & Hs & Hh)|[(a & s & e & -> & _ & Hh)
        |[[Hg Hh]|(_ & m & Hh)]]]; rewrite Hh in H; try discriminate;
    injection H as <-; simpl; [|by split].
  split.
  - intros t [= <-]. unfold spec_title.
    destruct (List.find is_title _); [|by split].
    split; [apply strip_starts | apply strip_ends].
  - intros d [= <-]. unfold spec_description.
    destruct (List.find is_description_meta _); [|by split].
    split; [apply strip_starts | apply strip_ends].
Qed.

(** X4. A page whose first title element holds only whitespace gets the empty
    title, not the sentinel, and [display_results] does not show it. *)
Theorem blank_title_is_empty_and_not_shown
    (html u : string) (soup : Bs4.Soup) (progress : option Ref)
    (task_id : option Z) (st : Store) (r : PageResult) (t : Bs4.Tag)
    (out : list string) :
  html ≠ "" →
  (extract_page_info (Response 200 (Return html)) u progress task_id st).1
  = Return r →
  BeautifulSoup html = Return soup →
  first_where is_title (Bs4.tags soup) t →
  all_space (Bs4.text t) = true →
  title r = Some "" ∧ display_results [r] out = (Normal, out).
Proof.
  intros Hne H%extract_page_info_returns Hsoup Hfirst Hblank.
  rewrite (headless_fetched _ soup) in H by done.
  case_decide; [done|]. injection H as <-.
  assert (spec_title soup = "") as Ht.
  { unfold spec_title. rewrite (find_first_where _ _ _ Hfirst).
    by apply strip_all_space. }
  simpl. by rewrite Ht.
Qed.

(** X5. With a task id other than [0] that the bar knows, a coroutine that
    gives a record gives the same one as without a reporter and advances
    that task by exactly one, on a failed fetch as on a fetched page; the
    other tasks of the bar stay as they are.  A coroutine that raises leaves
    the bar as it is. *)
Theorem truthy_task_id_advances_by_one
    (got : Outcome) (u : string) (id : Z) (st : Store) (t : Rich.Task) :
  id ≠ 0 →
  Rich.tasks (bar st) !! id = Some t →
  match headless got u with
  | Return r =>
      ∃ st',
        extract_page_info got u (Some the_bar) (Some id) st = (Return r, st')
        ∧ Rich.advanced id (bar st') = Some (Rich.completed t + 1)
        ∧ ∀ id', id' ≠ id →
            Rich.tasks (bar st') !! id' = Rich.tasks (bar st) !! id'
  | Raise e =>
      (extract_page_info got u (Some the_bar) (Some id) st).1 = Raise e
      ∧ bar (extract_page_info got u (Some the_bar) (Some id) st).2 = bar st
  end.
Proof.
  intros Hid Ht. rewrite extract_page_info_split, (advance_truthy _ _ Hid).
  pose proof (fetch_url_bar got u st) as Hb.
  destruct (headless got u) as [r|e]; [|done].
  destruct (fetch_url got u st) as [x st1]. simpl in Hb |- *.
  unfold progress_update, Rich.update. rewrite Hb, Ht.
  eexists. split; [reflexivity|].
  unfold Rich.advanced. simpl. split.
  - by rewrite lookup_insert_eq.
  - intros id' Hne. by rewrite lookup_insert_ne.
Qed.

(** X6. With a task id other than [0] that the bar does not know, a
    coroutine that would give a record raises the [KeyError] of
    [progress.update] instead, after the fetch and its error line; one that
    raises before raises the same; the bar is as before. *)
Theorem unknown_task_id_raises_key_error
    (got : Outcome) (u : string) (id : Z) (st : Store) :
  id ≠ 0 →
  Rich.tasks (bar st) !! id = None →
  (extract_page_info got u (Some the_bar) (Some id) st).1
  = match headless got u with
    | Return _ => Raise (KeyError (pretty id))
    | Raise e => Raise e
    end
  ∧ (extract_page_info got u (Some the_bar) (Some id) st).2
    = (fetch_url got u st).2
  ∧ bar (fetch_url got u st).2 = bar st.
Proof.
  intros Hid Ht. rewrite extract_page_info_split, (advance_truthy _ _ Hid).
  pose proof (fetch_url_bar got u st) as Hb. split; [|split; [|exact Hb]];
    destruct (headless got u) as [r|e]; try done;
    destruct (fetch_url got u st) as [x st1]; simpl in Hb |- *;
    unfold progress_update, Rich.update; by rewrite Hb, Ht.
Qed.

(** *** [display_results] *)

Lemma length_link_lines i l : length (link_lines i l) = length l.
Proof.
  revert i. induction l as [|x l IH]; intros i; simpl; [done|].
  by rewrite IH.
Qed.

Lemma grows_done n te out : n = 0%nat → grows n True te (Normal, out) out.
Proof. intros ->. exists []. by rewrite app_nil_r. Qed.

Lemma print_grows te line out : grows 1 True te (print line out) out.
Proof.
  unfold print. destruct (markup_error line) as [m|] eqn:Hm.
  - exists []. rewrite app_nil_r. simpl. split; [done|]. split; [lia|].
    by exists line, m.
  - by exists [line].
Qed.

Lemma and_then_grows n1 n2 N1 N2 te x k out :
  grows n1 N1 te x out →
  (∀ out', grows n2 N2 te (k out') out') →
  grows (n1 + n2) (N1 ∧ N2) te (and_then x k) out.
Proof.
  intros (a1 & H1 & Hle1 & Hx) Hk. destruct x as [[| |e] o]; simpl in *.
  - subst o. destruct Hx as [HN1 Hn1].
    destruct (Hk (out ++ a1)%list) as (a2 & H2 & Hle2 & Hx2).
    exists (a1 ++ a2)%list. rewrite H2, app_assoc, length_app.
    split; [done|]. split; [lia|].
    destruct (k (out ++ a1)%list).1; [|done|done].
    destruct Hx2 as [HN2 Hn2]. split; [done | lia].
  - exists a1. split; [done|]. split; [lia | done].
  - exists a1. split; [done|]. split; [lia | done].
Qed.

Lemma grows_impl n N N' te te' x out :
  grows n N te x out → (N → N') → (te → te') → grows n N' te' x out.
Proof.
  intros (a & H & Hle & Hx) HN Hte. exists a. do 2 (split; [done|]).
  destruct x.1; [|auto|done]. destruct Hx. auto.
Qed.

Lemma grows_more n n' N te x out :
  grows n False te x out → (n ≤ n')%nat → grows n' N te x out.
Proof.
  intros (a & H & Hle & Hx) Hn. exists a. split; [done|]. split; [lia|].
  destruct x.1; [by destruct Hx|done|done].
Qed.

Lemma grows_eq n n' N te x out :
  grows n N te x out → n = n' → grows n' N te x out.
Proof. by intros H <-. Qed.


Lemma print_lines_grows te lines : ∀ out,
  grows (length lines) True te (print_lines lines out) out.
Proof.
  induction lines as [|line rest IH]; intros out.
  - by apply grows_done.
  - cbn [print_lines length].
    eapply grows_impl;
      [apply (and_then_grows 1 (length rest)); [apply print_grows | apply IH]
      | done | done].
Qed.

Lemma display_results_untitled r rs out :
  titled r = false → display_results (r :: rs) out = display_results rs out.
Proof. unfold titled. simpl. by destruct (title r) as [[|a t]|]. Qed.

(** The loop of [display_results], one record and then the others. *)
Lemma display_results_cons r rs out :
  titled r = true →
  display_results (r :: rs) out
  = and_then (display_results [r] out) (display_results rs).
Proof.
  unfold titled. cbn [display_results].
  destruct (title r) as [[|a t]|]; try discriminate. intros _.
  destruct (print _ out) as [[| |e] o1]; cbn [and_then]; try reflexivity.
  destruct (print _ o1) as [[| |e] o2]; cbn [and_then]; try reflexivity.
  destruct (description r) as [d|]; [|reflexivity].
  destruct (print _ o2) as [[| |e] o3]; cbn [and_then]; try reflexivity.
  destruct (match links r with [] => _ | _ => _ end) as [[| |e] o4];
    cbn [and_then]; try reflexivity.
  by destruct (print _ o4) as [[| |e] o5].
Qed.

(** One record that is shown. *)
Lemma display_results_one r out :
  titled r = true →
  grows (lines_of r) (is_Some (description r)) (description r = None)
    (display_results [r] out) out.
Proof.
  intros Ht. unfold lines_of. rewrite Ht. revert Ht.
  unfold titled. cbn [display_results].
  destruct (title r) as [[|a t]|]; try discriminate. intros _.
  destruct (description r) as [d|] eqn:Hd.
  - eapply grows_eq; [eapply grows_impl|].
    + eapply (and_then_grows 1 _ True); [apply print_grows|]. intros o1.
      eapply (and_then_grows 1 _ True); [apply print_grows|]. intros o2.
      eapply (and_then_grows 1 _ True); [apply print_grows|]. intros o3.
      apply (and_then_grows
               (match links r with [] => 0 | _ :: _ => 1 + length (links r)
                end) 1 True True).
      * destruct (links r) as [|l ls]; [by apply grows_done|].
        eapply grows_eq;
          [eapply grows_impl;
             [eapply (and_then_grows 1 _ True True);
                [apply print_grows | intros o; apply print_lines_grows]
             | done | done]|].
        by rewrite length_link_lines.
      * intros o4. eapply grows_eq; [eapply grows_impl|].
        -- apply (and_then_grows 1 0 True True); [apply print_grows|].
           intros o5. by apply grows_done.
        -- done.
        -- done.
        -- reflexivity.
    + intros _. by eexists.
    + done.
    + destruct (links r); simpl; lia.
  - eapply (grows_more 2).
    + eapply grows_impl.
      * apply (and_then_grows 1 1 True False); [apply print_grows|].
        intros o1.
        apply (grows_impl 1 (True ∧ False) False (description r = None)
                 (description r = None)); [|tauto|done].
        apply (and_then_grows 1 0 True False); [apply print_grows|].
        intros o2. exists []. rewrite app_nil_r. simpl.
        split; [done|]. split; [lia | done].
      * tauto.
      * done.
    + destruct (links r); lia.
Qed.

Lemma display_results_grows rs : ∀ out,
  grows (sum_list (lines_of <$> rs)) (Forall showable rs)
    (Exists unshowable rs) (display_results rs out) out.
Proof.
  induction rs as [|r rs IH]; intros out.
  - exists []. rewrite app_nil_r. by repeat split.
  - destruct (titled r) eqn:Ht.
    + rewrite (display_results_cons _ _ _ Ht). csimpl.
      eapply grows_impl.
      * apply (and_then_grows (lines_of r) _ (is_Some (description r))
                 (Forall showable rs) (Exists unshowable (r :: rs))).
        -- eapply grows_impl; [by apply display_results_one | done|].
           intros Hd. by left.
        -- intros out'. eapply grows_impl; [apply IH | done|].
           intros H. by right.
      * intros [Hd Hall]. constructor; [by intros _ | done].
      * done.
    + rewrite (display_results_untitled _ _ _ Ht). csimpl.
      assert (lines_of r = 0%nat) as -> by (unfold lines_of; by rewrite Ht).
      eapply grows_impl; [apply IH| |].
      * intros Hall. constructor; [|done]. intros Ht'. congruence.
      * intros H. by right.
Qed.

(** X7. [display_results] shows the records with a truthy title and passes
    over the others without a line: failure records, and pages whose title
    is empty. *)
Theorem display_results_shows_only_titled
    (rs : list PageResult) (out : list string) :
  display_results rs out = display_results (List.filter titled rs) out
  ∧ (Forall (λ r, titled r = false) rs →
     display_results rs out = (Normal, out)).
Proof.
  assert (∀ out, display_results rs out
                 = display_results (List.filter titled rs) out) as Hfilter.
  { induction rs as [|r rs IH]; intros out'; [reflexivity|].
    cbn [List.filter]. destruct (titled r) eqn:Ht.
    - rewrite (display_results_cons r rs _ Ht),
        (display_results_cons r (List.filter titled rs) _ Ht).
      destruct (display_results [r] out') as [[| |e] o]; cbn [and_then];
        [apply IH | done | done].
    - rewrite (display_results_untitled _ _ _ Ht). apply IH. }
  split; [apply Hfilter|].
  intros Hall. rewrite Hfilter.
  assert (List.filter titled rs = []) as ->; [|reflexivity].
  clear Hfilter.
  induction Hall as [|r rs Hr _ IH]; simpl; [done|]. by rewrite Hr.
Qed.


(** X9. [display_results] only adds to the console; when it returns, it has
    added four lines for each record it shows, and one more and one per link
    for a record with links. *)
Theorem display_results_appends_its_lines
    (rs : list PageResult) (out : list string) :
  ∃ added,
    (display_results rs out).2 = (out ++ added)%list
    ∧ ((display_results rs out).1 = Normal →
       length added = sum_list (lines_of <$> rs)).
Proof.
  destruct (display_results_grows rs out) as (added & Hout & _ & H).
  exists added. split; [done|]. intros Hn. rewrite Hn in H. by destruct H.
Qed.

(** *** The console of the batch *)

(** What [fetch_url] prints: nothing for a fetched body, and for a failed
    fetch its one error line, unless the print of the handler raises. *)
Lemma fetch_url_console got u st :
  ∃ errors,
    console (fetch_url got u st).2 = (console st ++ errors)%list
    ∧ Forall (λ l, Py.startswith l "[bold red]Error fetching " = true) errors
    ∧ (length errors ≤ if fetch_fails got then 1 else 0)%nat
    ∧ (∀ r, headless got u = Return r →
            length errors = if fetch_fails got then 1%nat else 0%nat).
Proof.
  destruct (fetch_url_cases got u)
    as [(body & -> & H)|[(Hf & line & Hl & H)|(Hf & m & H)]]; rewrite H.
  - exists []. rewrite app_nil_r. simpl. repeat split; try done.
  - exists [line]. rewrite Hf. simpl. repeat split; try done.
    by constructor.
  - exists []. rewrite app_nil_r, Hf. simpl. repeat split; try done; [lia|].
    intros r. unfold headless.
    by rewrite (extract_page_info_fetch_raised _ _ _ _ _ _ _ (H _)).
Qed.

Section Console.

Variable urls : list string.
Variable max_concurrent : Z.

Lemma step_console L ev L' :
  step urls max_concurrent 0 L ev = Some L' →
  ∃ errors,
    console (store L') = (console (store L) ++ errors)%list
    ∧ Forall (λ l, Py.startswith l "[bold red]Error fetching " = true) errors
    ∧ (length errors ≤ if failed_settle ev then 1 else 0)%nat
    ∧ (raised L' = None →
       raised L = None
       ∧ length errors = if failed_settle ev then 1%nat else 0%nat).
Proof.
  destruct ev as [i|i|i got]; intros Hstep.
  - apply step_connect in Hstep as (_ & _ & ->).
    exists []. rewrite app_nil_r. simpl. by repeat split.
  - apply step_redirect in Hstep as (_ & ->).
    exists []. rewrite app_nil_r. simpl. by repeat split.
  - apply step_settle in Hstep as (c & u & _ & _ & _ & ->).
    destruct (fetch_url_console got u (store L))
      as (errors & Hc & Hall & Hle & Hlen).
    exists errors. cbn [store raised failed_settle].
    do 3 (split; [done|]). intros Hr.
    destruct (raised L) as [e|]; [done|].
    destruct (headless got u) as [r|e] eqn:Hh; [|done].
    split; [done|]. by apply (Hlen r).
Qed.

Lemma run_console schedule : ∀ L L',
  run urls max_concurrent 0 L schedule = Some L' →
  ∃ errors,
    console (store L') = (console (store L) ++ errors)%list
    ∧ Forall (λ l, Py.startswith l "[bold red]Error fetching " = true) errors
    ∧ (length errors ≤ failures schedule)%nat
    ∧ (raised L' = None →
       raised L = None ∧ length errors = failures schedule).
Proof.
  induction schedule as [|ev rest IH]; intros L L' Hrun; cbn [run] in Hrun.
  - injection Hrun as <-. exists []. rewrite app_nil_r. by repeat split.
  - destruct (step urls max_concurrent 0 L ev) as [L1|] eqn:Hstep;
      [|discriminate].
    destruct (IH _ _ Hrun) as (errors & Hc & Hall & Hle & Hlen).
    destruct (step_console _ _ _ Hstep)
      as (errors1 & Hc1 & Hall1 & Hle1 & Hlen1).
    exists (errors1 ++ errors)%list.
    rewrite Hc, Hc1, <- app_assoc, length_app.
    assert (failures (ev :: rest)
            = ((if failed_settle ev then 1 else 0) + failures rest)%nat) as ->.
    { unfold failures. cbn [List.filter]. by destruct (failed_settle ev). }
    split; [done|]. split; [by apply Forall_app|]. split; [lia|].
    intros Hr. destruct (Hlen Hr) as [Hr1 ->].
    destruct (Hlen1 Hr1) as [Hr0 ->]. done.
Qed.

End Console.

(** *** The batch, its console and its display *)






(** X10. While the batch runs, the console only grows, by "Error fetching"
    lines, at most one per fetch that has failed so far, and exactly one per
    such fetch as long as no coroutine has raised; a 200 response adds no
    line. *)
Theorem batch_prints_one_line_per_failed_fetch
    (urls : list string) (max_concurrent : Z) (out : list string)
    (schedule : list Event) (L : Loop) :
  run urls max_concurrent (start urls out).1 (start urls out).2 schedule
  = Some L →
  ∃ errors,
    console (store L) = (out ++ errors)%list
    ∧ Forall (λ l, Py.startswith l "[bold red]Error fetching " = true) errors
    ∧ (length errors ≤ failures schedule)%nat
    ∧ (raised L = None → length errors = failures schedule).
Proof.
  intros Hrun. apply run_console in Hrun as (errors & Hc & Hall & Hle & Hlen).
  exists errors. do 3 (split; [done|]). intros Hr. by apply Hlen.
Qed.


(** *** The connector without a limit *)

Lemma start_replicate urls out :
  coros (start urls out).2 = replicate (length urls) Waiting.
Proof. simpl. by apply const_fmap. Qed.

Lemma acquired_replicate n m :
  acquired (replicate n InFlight ++ replicate m Waiting)%list = n.
Proof.
  unfold acquired. induction n as [|n IH]; simpl.
  - induction m as [|m IH]; [reflexivity | exact IH].
  - by rewrite IH.
Qed.

Lemma connect_all urls task_id n L0 k :
  coros L0 = replicate n Waiting → (k ≤ n)%nat →
  run urls 0 task_id L0 (Connect <$> seq 0 k)
  = Some {| coros := (replicate k InFlight
                       ++ replicate (n - k) Waiting)%list;
            raised := raised L0; store := store L0 |}.
Proof.
  intros H0. induction k as [|k IH]; intros Hk.
  - simpl. rewrite Nat.sub_0_r, <- H0. by destruct L0.
  - rewrite seq_S, fmap_app, run_app, IH by lia. cbn [fmap list_fmap run].
    unfold step. cbn [coros raised store]. change (0 + k)%nat with k.
    assert ((replicate k InFlight ++ replicate (n - k) Waiting)%list !! k
            = Some Waiting) as ->.
    { rewrite lookup_app_r by (rewrite length_replicate; lia).
      rewrite length_replicate, Nat.sub_diag.
      apply lookup_replicate_2. lia. }
    change (available 0 _) with 1. cbv iota. do 2 f_equal.
    rewrite insert_app_r_alt by (rewrite length_replicate; lia).
    rewrite length_replicate, Nat.sub_diag.
    replace (n - k)%nat with (S (n - S k)) by lia.
    rewrite (replicate_S_end k), <- app_assoc. reflexivity.
Qed.

(** X13. With [max_concurrent = 0] the connector has no limit: every fetch
    of the batch can be connected before any settles, so all of them hold a
    connection at once. *)
Theorem limit_zero_is_no_limit
    (urls : list string) (out : list string) :
  ∃ L,
    run urls 0 (start urls out).1 (start urls out).2
      (Connect <$> seq 0 (length urls)) = Some L
    ∧ acquired (coros L) = length urls.
Proof.
  eexists. split.
  - apply connect_all; [apply start_replicate | lia].
  - cbn [coros]. apply acquired_replicate.
Qed.

(** *** The exceptions of a coroutine *)

(** An exception that leaves the coroutine without a reporter is the
    [MarkupError] of a refused error line or the exception of the parser. *)
Lemma headless_raise_cases got u e :
  headless got u = Raise e →
  refused e ∨ ∃ html, BeautifulSoup html = Raise e.
Proof.
  unfold headless. set (st0 := {| console := []; bar := Rich.new |}).
  destruct (outcome_cases got) as [[body ->]|[Hf _]].
  - destruct body as [|a s].
    + by rewrite (extract_page_info_no_body _ _ _ _ st0 st0); [|right].
    + destruct (BeautifulSoup (String a s)) as [soup|e'] eqn:Hsoup.
      * by rewrite (extract_page_info_parsed _ _ soup).
      * rewrite (extract_page_info_rejected _ _ e') by done.
        intros [= <-]. right. eauto.
  - destruct (fetch_url_fails_cases got u st0 Hf) as [[st' H]|(e' & He & H)].
    + by rewrite (extract_page_info_no_body _ _ _ _ st0 st'); [|left].
    + rewrite (extract_page_info_fetch_raised _ _ _ _ _ _ _ H).
      intros [= <-]. by left.
Qed.

Lemma lenient_not_refused e :
  (∀ line, markup_error line = None) → ¬ refused e.
Proof. intros H (line & m & Hm & _). by rewrite H in Hm. Qed.

Lemma headless_lenient got u :
  (∀ line, markup_error line = None) →
  (∀ html, ∃ soup, BeautifulSoup html = Return soup) →
  ∃ r, headless got u = Return r.
Proof.
  intros Hlenient Htotal. destruct (headless got u) as [r|e] eqn:Hh; [eauto|].
  apply headless_raise_cases in Hh as [Hr|[html Hraise]].
  - by destruct (lenient_not_refused e).
  - destruct (Htotal html) as [soup Hsoup]. congruence.
Qed.

(** *** [main] *)

Lemma default_or_given (us : list string) :
  match us with [] => default_urls | _ :: _ => us end ≠ []
  ∧ match us with [] => default_urls | _ :: _ => us end
    = if decide (us = []) then default_urls else us.
Proof. by destruct us. Qed.



(** The list comprehension of [main] keeps the lines that are not blank. *)
Lemma filter_strip_file_urls lines :
  List.filter nonempty (Py.strip <$> lines) = file_urls lines.
Proof.
  unfold file_urls. induction lines as [|l lines IH]; [reflexivity|].
  csimpl. destruct (all_space l) eqn:Hl.
  - rewrite (strip_all_space _ Hl). exact IH.
  - destruct (Py.strip l) as [|a s] eqn:Hs.
    + apply strip_empty_iff in Hs. congruence.
    + simpl. by rewrite IH.
Qed.


(** X15. From a file that can be read, [main] takes the lines that are not
    blank, trimmed, in the order of the file and behind the URLs of the
    command line; it prints nothing, and falls back to the default URLs only
    if that leaves no URL at all. *)
Theorem urls_from_file_are_nonblank_and_trimmed
    (args : Argparse.Namespace) (fs : string → FileRead)
    (out : list string) (path : string) (lines : list string) :
  Argparse.file args = Some path →
  path ≠ "" →
  fs path = FileLines lines →
  main_urls args fs out
  = (Return (if decide ((Argparse.urls args ++ file_urls lines)%list = [])
             then default_urls
             else (Argparse.urls args ++ file_urls lines)%list),
     out)
  ∧ file_urls lines = List.filter nonempty (Py.strip <$> lines)
  ∧ Forall (λ u, u ≠ "" ∧ Py.strip u = u) (file_urls lines)
  ∧ ∀ l, l ∈ lines → Py.strip l ≠ "" → Py.strip l ∈ file_urls lines.
Proof.
  intros Hfile Hpath Hfs. rewrite <- filter_strip_file_urls.
  split; [|split; [done|split]].
  - unfold main_urls. rewrite Hfile.
    destruct path as [|a path]; [done|]. rewrite Hfs.
    rewrite <- (proj2 (default_or_given _)).
    by destruct (_ ++ _)%list.
  - apply Forall_forall. intros u Hu.
    apply list_elem_of_In, filter_In in Hu as [Hin Hu].
    apply list_elem_of_In, list_elem_of_fmap in Hin as (l & -> & _).
    split; [by destruct (Py.strip l) | apply strip_strip].
  - intros l Hl Hne. apply list_elem_of_In, filter_In. split.
    + apply list_elem_of_In, list_elem_of_fmap. eauto.
    + by destruct (Py.strip l).
Qed.



End Scraper.

(** ** Concrete runs

    The theorems above, applied to the test doubles. *)

Lemma process_urls_one_record_per_url_in_order_witness :
  ∃ rs,
    process_urls Mock.urlparse Mock.BeautifulSoup Mock.markup_error Mock.two_urls 1 []
      [ Connect 1; Settle 1 (Raised TimeoutError);
        Connect 0; Redirect 0; Connect 0;
        Settle 0 (Response 200 (Return "<full page>")) ]
    = Some (Return rs)
    ∧ length rs = 2%nat
    ∧ url <$> rs = Mock.two_urls.
Proof.
  destruct (process_urls_one_record_per_url_in_order
              Mock.urlparse Mock.BeautifulSoup Mock.markup_error Mock.two_urls 1 [])
    as [H _].
  destruct (H [ Connect 1; Settle 1 (Raised TimeoutError);
                Connect 0; Redirect 0; Connect 0;
                Settle 0 (Response 200 (Return "<full page>")) ]
              _ eq_refl) as (_ & Hrs & _).
  eexists. split; [reflexivity|].
  destruct (Hrs _ eq_refl) as [Hlen _]. split; [exact Hlen | reflexivity].
Defined.

(** Two batches against C1 as it is stated: a body that the parser rejects,
    and a URL with a closing tag whose fetch fails.  [process_urls] raises
    and returns no list. *)
Lemma batch_with_a_raising_coroutine_returns_no_list :
  process_urls Mock.urlparse Mock.BeautifulSoup Mock.markup_error [ "https://site.com" ] 5 []
    [ Connect 0; Settle 0 (Response 200 (Return "<![foo[bar]]>")) ]
  = Some (Raise (ParserRejectedMarkup
                   "expected name token at '<![foo[bar]]>'"))
  ∧ process_urls Mock.urlparse Mock.BeautifulSoup Mock.markup_error Mock.tagged_urls 5 []
      [ Connect 0; Connect 1; Settle 0 (Response 404 (Return ""));
        Settle 1 (Response 200 (Return "<full page>")) ]
    = Some (Raise (MarkupError
                     "closing tag '[/b]' doesn't match any open tag")).
Proof. split; reflexivity. Qed.

Lemma links_resolved_filtered_truncated_witness :
  (∃ r st',
     extract_page_info Mock.urlparse Mock.BeautifulSoup Mock.markup_error
       (Response 200 (Return "<four anchors>")) "https://site.com"
       None None Mock.store0 = (Return r, st')
     ∧ links r = [ "https://site.com/about"; "https://x.com/page" ])
  ∧ (∃ r st',
       extract_page_info Mock.urlparse Mock.BeautifulSoup Mock.markup_error
         (Response 200 (Return "<eight anchors>")) "https://site.com"
         None None Mock.store0 = (Return r, st')
       ∧ links r = [ "https://site.com/1"; "https://x.com/2";
                     "https://site.com/3"; "http://y.org/4";
                     "https://site.com/5" ]).
Proof.
  split.
  - destruct (links_resolved_filtered_truncated
                Mock.urlparse Mock.BeautifulSoup Mock.markup_error "<four anchors>" Mock.four_anchors
                "https://site.com" None None Mock.store0
                eq_refl eq_refl eq_refl)
      as (r & st' & Hrun & _ & Hex).
    exists r, st'. split; [exact Hrun|]. apply Hex; reflexivity.
  - destruct (links_resolved_filtered_truncated
                Mock.urlparse Mock.BeautifulSoup Mock.markup_error "<eight anchors>" Mock.eight_anchors
                "https://site.com" None None Mock.store0
                eq_refl eq_refl eq_refl)
      as (r & st' & Hrun & Hlinks & _).
    exists r, st'. split; [exact Hrun|]. rewrite Hlinks. reflexivity.
Defined.

(** A fetched body against C2 as it is stated: the parser rejects it, and
    there is no record and no list of links. *)
Lemma rejected_body_has_no_links :
  extract_page_info Mock.urlparse Mock.BeautifulSoup Mock.markup_error
    (Response 200 (Return "<![foo[bar]]>")) "https://site.com"
    None None Mock.store0
  = (Raise (ParserRejectedMarkup "expected name token at '<![foo[bar]]>'"),
     Mock.store0).
Proof. reflexivity. Qed.

Lemma failed_fetch_with_refused_line_raises_witness :
  fetch_fails (Response 404 (Return "")) = true
  ∧ fetch_fails (Raised TimeoutError) = true
  ∧ extract_page_info Mock.urlparse Mock.BeautifulSoup Mock.markup_error
      (Response 404 (Return "")) "https://site.com/[/b]"
      (Some the_bar) (Some 0) Mock.store0
    = (Raise (MarkupError "closing tag '[/b]' doesn't match any open tag"),
       Mock.store0)
  ∧ extract_page_info Mock.urlparse Mock.BeautifulSoup Mock.markup_error
      (Raised TimeoutError) "https://site.com/[/b]"
      (Some the_bar) (Some 0) Mock.store0
    = (Raise (MarkupError "closing tag '[/b]' doesn't match any open tag"),
       Mock.store0).
Proof.
  destruct (failed_fetch_with_refused_line_raises
              Mock.urlparse Mock.BeautifulSoup Mock.markup_error "https://site.com/[/b]" (Some the_bar) (Some 0)
              Mock.store0) as (Hstatus & Hraised & _).
  do 2 (split; [reflexivity|]). split.
  - apply (Hstatus 404 (Return "")
             "closing tag '[/b]' doesn't match any open tag");
      [lia | reflexivity | reflexivity].
  - apply Hraised. reflexivity.
Defined.

Lemma sentinels_for_nonempty_body_witness :
  (∃ r st',
     extract_page_info Mock.urlparse Mock.BeautifulSoup Mock.markup_error
       (Response 200 (Return "<full page>")) "https://site.com"
       None None Mock.store0 = (Return r, st')
     ∧ title r = Some "Welcome" ∧ description r = Some "A page.")
  ∧ (∃ r st',
       extract_page_info Mock.urlparse Mock.BeautifulSoup Mock.markup_error
         (Response 200 (Return "<p>hello</p>")) "https://site.com"
         None None Mock.store0 = (Return r, st')
       ∧ title r = Some "No title"
       ∧ description r = Some "No description").
Proof.
  split.
  - destruct (sentinels_for_nonempty_body
                Mock.urlparse Mock.BeautifulSoup Mock.markup_error "<full page>" Mock.full_page
                "https://site.com" None None Mock.store0)
      as (r & st' & Hrun & _ & _ & Htitle & Hdesc);
      [discriminate | reflexivity | reflexivity |].
    exists r, st'. split; [exact Hrun|]. split.
    + apply (Htitle Mock.title_tag).
      exists (take 2 (Bs4.tags Mock.full_page)),
             (drop 3 (Bs4.tags Mock.full_page)).
      split; [reflexivity|]. split; [|reflexivity].
      repeat constructor.
    + apply (Hdesc Mock.description_tag " A page. "); [|reflexivity].
      exists (take 3 (Bs4.tags Mock.full_page)),
             (drop 4 (Bs4.tags Mock.full_page)).
      split; [reflexivity|]. split; [|reflexivity].
      repeat constructor.
  - destruct (sentinels_for_nonempty_body
                Mock.urlparse Mock.BeautifulSoup Mock.markup_error "<p>hello</p>" Mock.plain
                "https://site.com" None None Mock.store0)
      as (r & st' & Hrun & Htitle & Hdesc & _);
      [discriminate | reflexivity | reflexivity |].
    exists r, st'. split; [exact Hrun|].
    split; [apply Htitle | apply Hdesc]; repeat constructor.
Defined.

(** Two bodies against C4 as it is stated.  The empty body: the document has
    no title element and no description meta tag, and still the title is not
    "No title" and the description is not "No description".  A body that the
    parser rejects: there is no record. *)
Lemma empty_body_gets_no_sentinel :
  (∃ r st',
     extract_page_info Mock.urlparse Mock.BeautifulSoup Mock.markup_error
       (Response 200 (Return "")) "https://site.com" None None Mock.store0
     = (Return r, st')
     ∧ Mock.BeautifulSoup "" = Return []
     ∧ none_where is_title (Bs4.tags [])
     ∧ none_where is_description_meta (Bs4.tags [])
     ∧ title r = None ∧ title r ≠ Some "No title"
     ∧ description r = None ∧ description r ≠ Some "No description")
  ∧ (extract_page_info Mock.urlparse Mock.BeautifulSoup Mock.markup_error
       (Response 200 (Return "<![foo[bar]]>")) "https://site.com"
       None None Mock.store0).1
    = Raise (ParserRejectedMarkup "expected name token at '<![foo[bar]]>'").
Proof.
  split; [|reflexivity].
  eexists _, _. split; [reflexivity|].
  repeat split; try constructor; discriminate.
Qed.



Lemma in_flight_fetches_never_exceed_limit_witness :
  ∃ L,
    run Mock.urlparse Mock.BeautifulSoup Mock.markup_error Mock.two_urls 1
      (start Mock.two_urls []).1 (start Mock.two_urls []).2
      [ Connect 0; Redirect 0; Connect 1 ]
    = Some L
    ∧ acquired (coros L) = 1%nat
    ∧ Z.of_nat (acquired (coros L)) ≤ 1
    ∧ step Mock.urlparse Mock.BeautifulSoup Mock.markup_error Mock.two_urls 1
        (start Mock.two_urls []).1 L (Connect 0)
      = None.
Proof.
  eexists. split; [reflexivity|]. split; [reflexivity|].
  destruct (in_flight_fetches_never_exceed_limit
              Mock.urlparse Mock.BeautifulSoup Mock.markup_error Mock.two_urls 1 []
              [ Connect 0; Redirect 0; Connect 1 ] _ ltac:(lia) eq_refl)
    as (Hle & Hfull & _).
  split; [exact Hle|]. apply Hfull. reflexivity.
Defined.

Lemma progress_bar_never_advances_witness :
  ∃ L,
    run Mock.urlparse Mock.BeautifulSoup Mock.markup_error [ "https://python.org" ] 5
      (start [ "https://python.org" ] []).1
      (start [ "https://python.org" ] []).2
      [ Connect 0; Settle 0 (Response 200 (Return "<full page>")) ]
    = Some L
    ∧ Forall (λ c, finished c = true) (coros L)
    ∧ Rich.advanced (start [ "https://python.org" ] []).1 (bar (store L))
      = Some 0.
Proof.
  eexists. split; [reflexivity|]. split; [by repeat constructor|].
  apply (progress_bar_never_advances Mock.urlparse Mock.BeautifulSoup Mock.markup_error
           [ "https://python.org" ] 5 []
           [ Connect 0; Settle 0 (Response 200 (Return "<full page>")) ]).
  reflexivity.
Defined.



Lemma description_without_content_is_empty_witness :
  ∃ r st',
    extract_page_info Mock.urlparse Mock.BeautifulSoup Mock.markup_error
      (Response 200 (Return "<bare meta>")) "https://site.com"
      None None Mock.store0 = (Return r, st')
    ∧ description r = Some "".
Proof.
  destruct (description_without_content_is_empty
              Mock.urlparse Mock.BeautifulSoup Mock.markup_error "<bare meta>" Mock.bare_meta
              "https://site.com" None None Mock.store0 Mock.bare_meta_tag)
    as (r & st' & Hrun & Hd & _); try reflexivity.
  - exists [], []. split; [reflexivity|]. split; [constructor | reflexivity].
  - by exists r, st'.
Defined.

(** A page against C9 as it is stated: it has a meta tag named description
    without a content attribute, behind one with the content "x", and the
    description is "x". *)
Lemma earlier_description_with_content_wins :
  Mock.BeautifulSoup "<two metas>" = Return Mock.two_metas
  ∧ has_bare_description Mock.two_metas
  ∧ ∃ r st',
      extract_page_info Mock.urlparse Mock.BeautifulSoup Mock.markup_error
        (Response 200 (Return "<two metas>")) "https://site.com"
        None None Mock.store0 = (Return r, st')
      ∧ description r = Some "x"
      ∧ description r ≠ Some "".
Proof.
  split; [reflexivity|]. split.
  - exists Mock.bare_meta_tag. split; [|by split].
    apply list_elem_of_further, list_elem_of_here.
  - eexists _, _. split; [reflexivity|]. by split.
Qed.

Lemma empty_body_is_a_failed_fetch_witness :
  ∃ st',
    extract_page_info Mock.urlparse Mock.BeautifulSoup Mock.markup_error
      (Response 200 (Return "")) "https://site.com"
      (Some the_bar) (Some 0) Mock.store0
    = (Return {| url := "https://site.com"; title := None;
                 description := None; links := [] |}, st')
    ∧ (extract_page_info Mock.urlparse Mock.BeautifulSoup Mock.markup_error
         (Response 404 (Return "<full page>")) "https://site.com"
         (Some the_bar) (Some 0) Mock.store0).1
      = (extract_page_info Mock.urlparse Mock.BeautifulSoup Mock.markup_error
           (Response 200 (Return "")) "https://site.com"
           (Some the_bar) (Some 0) Mock.store0).1.
Proof.
  destruct (empty_body_is_a_failed_fetch Mock.urlparse Mock.BeautifulSoup Mock.markup_error
              "https://site.com" (Some the_bar) (Some 0) Mock.store0 eq_refl)
    as (st' & Hrun & Hsame).
  exists st'. split; [exact Hrun|].
  by apply (Hsame (Response 404 (Return "<full page>")) (failure _)).
Defined.

(** ** Concrete runs of the further properties *)

Lemma links_at_most_five_http_in_document_order_witness :
  ∃ r,
    (extract_page_info Mock.urlparse Mock.BeautifulSoup Mock.markup_error
       (Response 200 (Return "<eight anchors>")) "https://site.com"
       None None Mock.store0).1 = Return r
    ∧ length (links r) = 5%nat
    ∧ Forall (λ l, Py.startswith l "http://" = true
                   ∨ Py.startswith l "https://" = true) (links r).
Proof.
  eexists. split; [reflexivity|]. split; [reflexivity|].
  apply (links_at_most_five_http_in_document_order Mock.urlparse Mock.BeautifulSoup Mock.markup_error
           (Response 200 (Return "<eight anchors>")) "https://site.com"
           None None Mock.store0).
  reflexivity.
Defined.

Lemma record_has_no_title_iff_no_page_witness :
  ∃ r,
    (extract_page_info Mock.urlparse Mock.BeautifulSoup Mock.markup_error
       (Response 503 (Return "<full page>")) "https://site.com"
       None None Mock.store0).1 = Return r
    ∧ title r = None ∧ description r = None ∧ links r = [].
Proof.
  eexists. split; [reflexivity|].
  destruct (record_has_no_title_iff_no_page Mock.urlparse Mock.BeautifulSoup Mock.markup_error
              (Response 503 (Return "<full page>")) "https://site.com"
              None None Mock.store0 _ eq_refl)
    as (_ & Htitle & Hdesc & Hlinks).
  assert (title (failure "https://site.com") = None) as Hnone
    by (apply Htitle; by left).
  split; [exact Hnone|]. split; [by apply Hdesc | by apply Hlinks].
Defined.

Lemma title_and_description_are_trimmed_witness :
  ∃ r t,
    (extract_page_info Mock.urlparse Mock.BeautifulSoup Mock.markup_error
       (Response 200 (Return "<full page>")) "https://site.com"
       None None Mock.store0).1 = Return r
    ∧ title r = Some t
    ∧ starts_space t = false ∧ ends_space t = false.
Proof.
  eexists _, _. split; [reflexivity|]. split; [reflexivity|].
  destruct (title_and_description_are_trimmed Mock.urlparse Mock.BeautifulSoup Mock.markup_error
              (Response 200 (Return "<full page>")) "https://site.com"
              None None Mock.store0 _ eq_refl) as [Htitle _].
  apply Htitle. reflexivity.
Defined.

Lemma blank_title_is_empty_and_not_shown_witness :
  ∃ r,
    (extract_page_info Mock.urlparse Mock.BeautifulSoup' Mock.markup_error
       (Response 200 (Return "<blank title>")) "https://site.com"
       None None Mock.store0).1 = Return r
    ∧ title r = Some ""
    ∧ display_results Mock.markup_error [r] [] = (Normal, []).
Proof.
  eexists. split; [reflexivity|].
  apply (blank_title_is_empty_and_not_shown
           Mock.urlparse Mock.BeautifulSoup' Mock.markup_error
           "<blank title>" "https://site.com" Mock.blank_title None None
           Mock.store0 _ Mock.blank_title_tag []);
    try reflexivity; [discriminate|].
  exists [], []. split; [reflexivity|]. split; [constructor | reflexivity].
Defined.

Lemma truthy_task_id_advances_by_one_witness :
  ∃ r st',
    extract_page_info Mock.urlparse Mock.BeautifulSoup Mock.markup_error
      (Response 404 (Return "")) "https://site.com"
      (Some the_bar) (Some 1) Mock.store1 = (Return r, st')
    ∧ Rich.advanced 1 (bar st') = Some 1
    ∧ Rich.advanced 0 (bar st') = Some 0.
Proof.
  pose proof (truthy_task_id_advances_by_one Mock.urlparse Mock.BeautifulSoup Mock.markup_error
                (Response 404 (Return "")) "https://site.com" 1 Mock.store1
                {| Rich.completed := 0; Rich.total := 3 |}
                ltac:(lia) eq_refl) as H.
  change (headless Mock.urlparse Mock.BeautifulSoup Mock.markup_error (Response 404 (Return "")) "https://site.com")
    with (Return (failure "https://site.com")) in H.
  destruct H as (st' & Hrun & Hadv & Hothers).
  exists (failure "https://site.com"), st'.
  split; [exact Hrun|]. split; [exact Hadv|].
  unfold Rich.advanced. rewrite (Hothers 0); [reflexivity | lia].
Defined.

Lemma unknown_task_id_raises_key_error_witness :
  (extract_page_info Mock.urlparse Mock.BeautifulSoup Mock.markup_error
     (Response 200 (Return "<full page>")) "https://site.com"
     (Some the_bar) (Some 7) Mock.store0).1
  = Raise (KeyError "7").
Proof.
  destruct (unknown_task_id_raises_key_error Mock.urlparse Mock.BeautifulSoup Mock.markup_error
              (Response 200 (Return "<full page>")) "https://site.com" 7
              Mock.store0) as [-> _]; [lia | reflexivity |].
  reflexivity.
Defined.


Lemma batch_prints_one_line_per_failed_fetch_witness :
  ∃ L errors,
    run Mock.urlparse Mock.BeautifulSoup Mock.markup_error Mock.two_urls 2
      (start Mock.two_urls []).1 (start Mock.two_urls []).2
      [ Connect 0; Connect 1; Settle 1 (Raised TimeoutError);
        Settle 0 (Response 200 (Return "")) ]
    = Some L
    ∧ console (store L) = errors ∧ length errors = 1%nat.
Proof.
  eexists.
  destruct (batch_prints_one_line_per_failed_fetch Mock.urlparse Mock.BeautifulSoup Mock.markup_error Mock.two_urls 2 []
              [ Connect 0; Connect 1; Settle 1 (Raised TimeoutError);
                Settle 0 (Response 200 (Return "")) ] _ eq_refl)
    as (errors & Hc & _ & _ & Hlen).
  exists errors. split; [reflexivity|]. split; [exact Hc|].
  by apply Hlen.
Defined.


Lemma urls_from_file_are_nonblank_and_trimmed_witness :
  main_urls Mock.markup_error Mock.args Mock.fs []
  = (Return [ "https://site.com"; "https://python.org" ], [])
  ∧ file_urls [ "  https://python.org" +:+ nl; nl; "   " +:+ nl ]
    = [ "https://python.org" ].
Proof.
  destruct (urls_from_file_are_nonblank_and_trimmed
              Mock.markup_error Mock.args Mock.fs [] "urls.txt"
              [ "  https://python.org" +:+ nl; nl; "   " +:+ nl ]
              eq_refl ltac:(discriminate) eq_refl)
    as (Hurls & _).
  split; [|reflexivity]. rewrite Hurls. reflexivity.
Defined.

